(** * The segmented download engine of [routes/download.py]

    A shallow embedding of the class [DownloadTask] and of the routes that
    drive it, followed by the properties of the engine's specification that
    the code satisfies, and the places where it departs from them.

    Python integers are unbounded, hence [Z]; [//] is floor division, hence
    [Z.div].  File contents are [list byte].  The [status] attribute is a
    Python string, and is kept as one.  Exceptions are reduced to their class
    and to [str(e)], the only thing the code ever reads from them.

    The attributes [title], [progress] and [speed] are left out: the last two
    are computed in floating point from the wall clock, and nothing below
    depends on them. *)

From Stdlib Require Import ZArith Lia List String Ascii.
From Stdlib Require Import Strings.Byte.
From stdpp Require Import base decidable option list list_numbers sorting gmap strings pretty.

Open Scope Z_scope.

(** ** Exceptions and results *)

Inductive exn_kind :=
  | TransportError      (* requests.ConnectionError, Timeout, ChunkedEncodingError *)
  | HTTPError           (* raised by Response.raise_for_status *)
  | OSError             (* open, read, os.remove *)
  | ZeroDivisionError
  | ValueError
  | PlainException.     (* raise Exception(...) *)

Record exn := Exn { kind : exn_kind; str : string }.

Inductive result (A : Type) :=
  | Return (a : A)
  | Raise (e : exn).
Arguments Return {A} a.
Arguments Raise {A} e.

(** ** The task object *)

(** A chunk is the pair [(start, end)] of [_create_chunks]; [end] is [None]
    when the size is unknown. *)
Definition chunk : Type := Z * option Z.

Record DownloadTask := {
  id : string;
  url : string;
  filename : string;
  full_path : string;
  status : string;             (* pending, downloading, paused, completed, error *)
  total_size : Z;
  downloaded_size : Z;
  start_time : option Z;
  thread : option nat;         (* the worker thread last started, if any *)
  paused : bool;
  error_message : option string;
  max_connections : Z;
  supports_range : bool
}.

Definition set_status (v : string) (t : DownloadTask) : DownloadTask :=
  {| id := id t; url := url t; filename := filename t; full_path := full_path t;
     status := v; total_size := total_size t;
     downloaded_size := downloaded_size t; start_time := start_time t;
     thread := thread t; paused := paused t; error_message := error_message t;
     max_connections := max_connections t; supports_range := supports_range t |}.

Definition set_total_size (v : Z) (t : DownloadTask) : DownloadTask :=
  {| id := id t; url := url t; filename := filename t; full_path := full_path t;
     status := status t; total_size := v;
     downloaded_size := downloaded_size t; start_time := start_time t;
     thread := thread t; paused := paused t; error_message := error_message t;
     max_connections := max_connections t; supports_range := supports_range t |}.

Definition set_downloaded_size (v : Z) (t : DownloadTask) : DownloadTask :=
  {| id := id t; url := url t; filename := filename t; full_path := full_path t;
     status := status t; total_size := total_size t;
     downloaded_size := v; start_time := start_time t;
     thread := thread t; paused := paused t; error_message := error_message t;
     max_connections := max_connections t; supports_range := supports_range t |}.

Definition set_start_time (v : option Z) (t : DownloadTask) : DownloadTask :=
  {| id := id t; url := url t; filename := filename t; full_path := full_path t;
     status := status t; total_size := total_size t;
     downloaded_size := downloaded_size t; start_time := v;
     thread := thread t; paused := paused t; error_message := error_message t;
     max_connections := max_connections t; supports_range := supports_range t |}.

Definition set_thread (v : option nat) (t : DownloadTask) : DownloadTask :=
  {| id := id t; url := url t; filename := filename t; full_path := full_path t;
     status := status t; total_size := total_size t;
     downloaded_size := downloaded_size t; start_time := start_time t;
     thread := v; paused := paused t; error_message := error_message t;
     max_connections := max_connections t; supports_range := supports_range t |}.

Definition set_paused (v : bool) (t : DownloadTask) : DownloadTask :=
  {| id := id t; url := url t; filename := filename t; full_path := full_path t;
     status := status t; total_size := total_size t;
     downloaded_size := downloaded_size t; start_time := start_time t;
     thread := thread t; paused := v; error_message := error_message t;
     max_connections := max_connections t; supports_range := supports_range t |}.

Definition set_error_message (v : option string) (t : DownloadTask) : DownloadTask :=
  {| id := id t; url := url t; filename := filename t; full_path := full_path t;
     status := status t; total_size := total_size t;
     downloaded_size := downloaded_size t; start_time := start_time t;
     thread := thread t; paused := paused t; error_message := v;
     max_connections := max_connections t; supports_range := supports_range t |}.

Definition set_supports_range (v : bool) (t : DownloadTask) : DownloadTask :=
  {| id := id t; url := url t; filename := filename t; full_path := full_path t;
     status := status t; total_size := total_size t;
     downloaded_size := downloaded_size t; start_time := start_time t;
     thread := thread t; paused := paused t; error_message := error_message t;
     max_connections := max_connections t; supports_range := v |}.

(** The constructor.  The identifier is a fresh UUID and [full_path] is
    [os.path.join(download_path, filename)]; both are taken as given. *)
Definition __init__ (id url filename full_path : string) (max_connections : Z)
    : DownloadTask :=
  {| id := id; url := url; filename := filename; full_path := full_path;
     status := "pending"; total_size := 0; downloaded_size := 0;
     start_time := None; thread := None; paused := false;
     error_message := None; max_connections := max_connections;
     supports_range := false |}.

(** ** RangeProbe: [_check_range_support] *)

(** What the code reads of the answer to [requests.head]: the two headers,
    the second already passed through [int], which may raise [ValueError]. *)
Record head_response := {
  accept_ranges : option string;
  content_length : option (result Z)
}.

Definition _check_range_support (head : result head_response)
    (self : DownloadTask) : bool * DownloadTask :=
  let failed e (self : DownloadTask) :=
    (false, set_error_message
              (Some ("Failed to check server capabilities: " +:+ str e)) self) in
  match head with
  | Raise e => failed e self
  | Return response =>
      let self :=
        set_supports_range
          (bool_decide (accept_ranges response = Some "bytes")) self in
      match content_length response with
      | None => (true, self)
      | Some (Return n) => (true, set_total_size n self)
      | Some (Raise e) => failed e self
      end
  end.

(** ** SegmentPlanner: [_create_chunks] *)

Definition _create_chunks (self : DownloadTask) : result (list chunk) :=
  if negb (supports_range self) || (total_size self <=? 0) then
    Return [(0, if 0 <? total_size self then Some (total_size self - 1) else None)]
  else if max_connections self =? 0 then
    Raise (Exn ZeroDivisionError "integer division or modulo by zero")
  else
    let chunk_size :=
      Z.max (total_size self / max_connections self) (1024 * 1024) in
    Return
      (foldl
         (fun chunks i =>
            let start := i * chunk_size in
            let end_ := Z.min (start + chunk_size - 1) (total_size self - 1) in
            if start <=? end_ then chunks ++ [(start, Some end_)] else chunks)
         [] (seqZ 0 (max_connections self))).

(** Byte [b] lies in the range of a chunk; an open end reaches to the end of
    the stream. *)
Definition in_chunk (b : Z) (c : chunk) : Prop :=
  c.1 <= b /\ match c.2 with Some e => b <= e | None => True end.

Definition covered (l : list chunk) (b : Z) : Prop :=
  exists c, c ∈ l /\ in_chunk b c.

Definition non_overlapping (l : list chunk) : Prop :=
  forall (i j : nat) c1 c2 b,
    i <> j -> l !! i = Some c1 -> l !! j = Some c2 ->
    ~ (in_chunk b c1 /\ in_chunk b c2).

(** ** The world the task lives in *)

(** The file system: a path holds a regular file or a directory.  A directory
    is what makes [open] and [os.remove] raise on a path that exists.  Paths
    are flat: the directory a path lies in is taken to exist, and permissions
    and a full disk are not modelled, so [open] raises here in fewer cases
    than it can.  The contents of a file that is open for writing are the
    bytes passed to [file.write] so far: the buffer of the file object, which
    reaches the disk when the [with] block is left at the latest, is not kept
    apart from them. *)
Inductive node :=
  | File (data : list byte)
  | Dir.

(** A GET request, as [requests.get] receives it: the URL and the [Range]
    header, if one is set. *)
Record request := { req_url : string; req_range : option string }.

(** One step of [Response.iter_content]: a piece of the body, or the
    exception the transport raises in mid-stream. *)
Inductive stream_item :=
  | Piece (data : list byte)
  | Broken (e : exn).

(** What the code uses of a [Response]: the exception [raise_for_status]
    raises, if any, and the pieces [iter_content] yields. *)
Record response := {
  raise_for_status : option exn;
  iter_content : list stream_item
}.

(** The remote side: the outcome of a GET, which may depend on the requests
    made before it. *)
Definition network : Type := list request -> request -> result response.

Record World := {
  task : DownloadTask;              (* the one task object, shared by all threads *)
  fs : gmap string node;
  requests_log : list request       (* GET requests issued so far, oldest first *)
}.

Definition set_task (t : DownloadTask) (w : World) : World :=
  {| task := t; fs := fs w; requests_log := requests_log w |}.

Definition set_fs (m : gmap string node) (w : World) : World :=
  {| task := task w; fs := m; requests_log := requests_log w |}.

Definition set_requests_log (l : list request) (w : World) : World :=
  {| task := task w; fs := fs w; requests_log := l |}.

Definition upd_task (f : DownloadTask -> DownloadTask) (w : World) : World :=
  set_task (f (task w)) w.

(** *** A state and exception monad for straight-line method bodies *)

Definition py (A : Type) : Type := World -> World * result A.

Definition ret {A} (a : A) : py A := fun w => (w, Return a).

Definition raise {A} (e : exn) : py A := fun w => (w, Raise e).

Definition bind {A B} (k : A -> py B) (m : py A) : py B :=
  fun w =>
    match m w with
    | (w', Return a) => k a w'
    | (w', Raise e) => (w', Raise e)
    end.

(** [try: m except Exception as e: h e] *)
Definition try_except {A} (m : py A) (h : exn -> py A) : py A :=
  fun w =>
    match m w with
    | (w', Return a) => (w', Return a)
    | (w', Raise e) => h e w'
    end.

(** With these, [x ← m; k] and [m;; k] sequence two statements. *)
#[global] Instance py_ret : MRet py := @ret.
#[global] Instance py_bind : MBind py := @bind.

(** [for x in l: body x] *)
Fixpoint for_each {A} (l : list A) (body : A -> py unit) : py unit :=
  match l with
  | [] => ret tt
  | x :: l' => body x;; for_each l' body
  end.

Definition get_self {A} (f : DownloadTask -> A) : py A :=
  fun w => (w, Return (f (task w))).

Definition set_self (f : DownloadTask -> DownloadTask) : py unit :=
  fun w => (upd_task f w, Return tt).

(** *** File operations *)

Definition is_a_directory (p : string) : exn :=
  Exn OSError ("[Errno 21] Is a directory: '" +:+ p +:+ "'").

Definition no_such_file (p : string) : exn :=
  Exn OSError ("[Errno 2] No such file or directory: '" +:+ p +:+ "'").

(** [os.path.exists(p)] *)
Definition os_path_exists (p : string) : py bool :=
  fun w => (w, Return (bool_decide (is_Some (fs w !! p)))).

(** [open(p, 'wb')]: creates or truncates. *)
Definition open_wb (p : string) : py unit :=
  fun w =>
    match fs w !! p with
    | Some Dir => (w, Raise (is_a_directory p))
    | _ => (set_fs (<[p := File []]> (fs w)) w, Return tt)
    end.

(** [open(p, 'ab')]: creates, or keeps what is there. *)
Definition open_ab (p : string) : py unit :=
  fun w =>
    match fs w !! p with
    | Some Dir => (w, Raise (is_a_directory p))
    | Some (File _) => (w, Return tt)
    | None => (set_fs (<[p := File []]> (fs w)) w, Return tt)
    end.

(** [file.write(data)] on a file opened at [p]: appends.  Once the path has
    been unlinked the bytes no longer reach any path. *)
Definition file_write (p : string) (data : list byte) : py unit :=
  fun w =>
    match fs w !! p with
    | Some (File d) => (set_fs (<[p := File (d ++ data)]> (fs w)) w, Return tt)
    | _ => (w, Return tt)
    end.

(** [open(p, 'rb').read()] *)
Definition read_rb (p : string) : py (list byte) :=
  fun w =>
    match fs w !! p with
    | Some (File d) => (w, Return d)
    | Some Dir => (w, Raise (is_a_directory p))
    | None => (w, Raise (no_such_file p))
    end.

(** [os.remove(p)] *)
Definition os_remove (p : string) : py unit :=
  fun w =>
    match fs w !! p with
    | Some (File _) => (set_fs (delete p (fs w)) w, Return tt)
    | Some Dir => (w, Raise (is_a_directory p))
    | None => (w, Raise (no_such_file p))
    end.

(** ** Assembler: [_combine_chunks] *)

Definition _combine_chunks (temp_files : list string) : py unit :=
  try_except
    (final_file ← get_self full_path;
     open_wb final_file;;
     for_each temp_files (fun temp_file =>
       present ← os_path_exists temp_file;
       if present : bool then
         data ← read_rb temp_file;
         file_write final_file data;;
         os_remove temp_file
       else ret tt))
    (fun e =>
       set_self (set_status "error");;
       set_self (set_error_message
                   (Some ("Failed to combine chunks: " +:+ str e)))).

(** ** SegmentFetcher: [_download_chunk] and [_single_part_download]

    Fetchers run in threads of their own and share the task object, so a
    fetcher is a small machine: a program point and the locals live at it,
    advanced one atomic action at a time.  The program points are the places
    where the shared state is read or written.  Leaving the [with] block
    closes the file; it is part of the action that leaves the loop, except
    where that action has written the task: after the assignment
    [self.status = "paused"] of [_single_part_download] the thread has still
    to leave the block, and that is a program point of its own. *)

Inductive call :=
  | SinglePart (resume_pos : Z)
  | Chunk (start : Z) (end_ : option Z) (temp_file : string) (chunk_id : nat).

Inductive pc :=
  | Start                                              (* before requests.get *)
  | Iter (body : list stream_item)                     (* head of the for loop *)
  | Writing (chunk : list byte) (body : list stream_item)  (* before file.write *)
  | Counting (chunk : list byte) (body : list stream_item)  (* before with self.lock *)
  | Closing                                            (* before leaving the with block *)
  | Returned
  | Raised (e : exn).

Record fetcher := { f_call : call; f_pc : pc }.

Definition finished (p : pc) : bool :=
  match p with
  | Returned | Raised _ => true
  | _ => false
  end.

Definition queued (p : pc) : bool :=
  match p with
  | Start => true
  | _ => false
  end.

(** [requests.get(url, headers=..., stream=True)] followed by
    [response.raise_for_status()] *)
Definition requests_get (net : network) (r : request) : py response :=
  fun w =>
    let w' := set_requests_log (requests_log w ++ [r]) w in
    match net (requests_log w) r with
    | Raise e => (w', Raise e)
    | Return resp =>
        match raise_for_status resp with
        | Some e => (w', Raise e)
        | None => (w', Return resp)
        end
    end.

(** [f'bytes={start}-{end}'] *)
Definition range_header (start : Z) (end_ : option Z) : string :=
  "bytes=" +:+ pretty start +:+ "-" +:+
  match end_ with Some e => pretty e | None => "None" end.

(** The exception [_download_chunk] raises in place of [e]. *)
Definition chunk_failure (chunk_id : nat) (e : exn) : exn :=
  Exn PlainException
    ("Failed to download chunk " +:+ pretty chunk_id +:+ ": " +:+ str e).

Definition _download_chunk (net : network) (start : Z) (end_ : option Z)
    (temp_file : string) (chunk_id : nat) (p : pc) (w : World)
    : option (World * pc) :=
  match p with
  | Start =>
      let headers := Some (range_header start end_) in
      let prologue : py (list stream_item) :=
        response ← requests_get net
                     {| req_url := url (task w); req_range := headers |};
        open_wb temp_file;;
        ret (iter_content response) in
      match prologue w with
      | (w', Return body) => Some (w', Iter body)
      | (w', Raise e) => Some (w', Raised (chunk_failure chunk_id e))
      end
  | Iter [] => Some (w, Returned)
  | Iter (Broken e :: _) => Some (w, Raised (chunk_failure chunk_id e))
  | Iter (Piece chunk :: body) =>
      if paused (task w) then Some (w, Returned)
      else if bool_decide (chunk = []) then Some (w, Iter body)
      else Some (w, Writing chunk body)
  | Writing chunk body =>
      Some ((file_write temp_file chunk w).1, Counting chunk body)
  | Counting chunk body =>
      Some (upd_task (fun t => set_downloaded_size
                                 (downloaded_size t + Z.of_nat (length chunk)) t) w,
            Iter body)
  | Closing => Some (w, Returned)
  | Returned | Raised _ => None
  end.

Definition _single_part_download (net : network) (resume_pos : Z)
    (p : pc) (w : World) : option (World * pc) :=
  match p with
  | Start =>
      let headers :=
        if (0 <? resume_pos) && (0 <? total_size (task w))
        then Some ("bytes=" +:+ pretty resume_pos +:+ "-") else None in
      let prologue : py (list stream_item) :=
        response ← requests_get net
                     {| req_url := url (task w); req_range := headers |};
        (if 0 <? resume_pos then open_ab (full_path (task w))
         else open_wb (full_path (task w)));;
        ret (iter_content response) in
      match prologue w with
      | (w', Return body) => Some (w', Iter body)
      | (w', Raise e) => Some (w', Raised e)
      end
  | Iter [] => Some (w, Returned)
  | Iter (Broken e :: _) => Some (w, Raised e)
  | Iter (Piece chunk :: body) =>
      if paused (task w) then Some (upd_task (set_status "paused") w, Closing)
      else if bool_decide (chunk = []) then Some (w, Iter body)
      else Some (w, Writing chunk body)
  | Writing chunk body =>
      Some ((file_write (full_path (task w)) chunk w).1, Counting chunk body)
  | Counting chunk body =>
      Some (upd_task (fun t => set_downloaded_size
                                 (downloaded_size t + Z.of_nat (length chunk)) t) w,
            Iter body)
  | Closing => Some (w, Returned)
  | Returned | Raised _ => None
  end.

Definition fetcher_step (net : network) (f : fetcher) (w : World)
    : option (World * fetcher) :=
  let run :=
    match f_call f with
    | SinglePart resume_pos => _single_part_download net resume_pos
    | Chunk start end_ temp_file chunk_id =>
        _download_chunk net start end_ temp_file chunk_id
    end in
  '(w', p') ← run (f_pc f) w;
  Some (w', {| f_call := f_call f; f_pc := p' |}).

(** ** DownloadTask: the orchestrator [_multipart_download], the worker, and
       the calls [pause], [resume] and [start_download] *)

Inductive orch_pc :=
  | Waiting (pending : list nat)   (* in as_completed: futures not yet yielded *)
  | Leaving (returning : bool)     (* leaving the with block: shutdown(wait=True) *)
  | AfterPool                      (* the test that guards _combine_chunks *)
  | Finished.

Record orchestrator := {
  o_temp_files : list string;
  o_max_workers : Z;
  o_pc : orch_pc
}.

(** [_download_worker]: the two assignments of its body; the rest of the body
    is a pair of [pass] statements. *)
Inductive worker_pc :=
  | WStatus
  | WStartTime
  | WDone.

Record system := {
  world : World;
  fetchers : list fetcher;          (* the futures, in submission order *)
  orch : option orchestrator;
  workers : list worker_pc
}.

Definition set_world (w : World) (s : system) : system :=
  {| world := w; fetchers := fetchers s; orch := orch s; workers := workers s |}.

Definition set_orch_pc (p : orch_pc) (s : system) : system :=
  {| world := world s; fetchers := fetchers s;
     orch := (fun o => {| o_temp_files := o_temp_files o;
                          o_max_workers := o_max_workers o;
                          o_pc := p |}) <$> orch s;
     workers := workers s |}.

(** [f"{self.full_path}.part{i}"] *)
Definition part_name (full_path : string) (i : nat) : string :=
  full_path +:+ ".part" +:+ pretty i.

Definition make_temp_files (full_path : string) (chunks : list chunk) : list string :=
  imap (fun i _ => part_name full_path i) chunks.

(** The prologue of [_multipart_download]: the names of the sinks, the pool,
    and one future per chunk that starts at or after [resume_pos]. *)
Definition _multipart_download (chunks : list chunk) (resume_pos : Z)
    (w : World) : result system :=
  let temp_files := make_temp_files (full_path (task w)) chunks in
  if max_connections (task w) <=? 0 then
    Raise (Exn ValueError "max_workers must be greater than 0")
  else
    let futures :=
      omap (fun '(i, (start, end_)) =>
              if resume_pos <=? start
              then Some {| f_call := Chunk start end_ (part_name (full_path (task w)) i) i;
                           f_pc := Start |}
              else None)
           (imap (fun i c => (i, c)) chunks) in
    Return {| world := w; fetchers := futures;
              orch := Some {| o_temp_files := temp_files;
                              o_max_workers := max_connections (task w);
                              o_pc := Waiting (seq 0 (length futures)) |};
              workers := [] |}.

(** A call of [_single_part_download] on a thread of its own. *)
Definition single_part_system (resume_pos : Z) (w : World) : system :=
  {| world := w;
     fetchers := [{| f_call := SinglePart resume_pos; f_pc := Start |}];
     orch := None; workers := [] |}.

Definition pause (self : DownloadTask) : DownloadTask :=
  set_paused true self.

Definition start_download (s : system) : system :=
  {| world := upd_task (set_thread (Some (length (workers s)))) (world s);
     fetchers := fetchers s; orch := orch s;
     workers := workers s ++ [WStatus] |}.

Definition resume (s : system) : system :=
  if bool_decide (status (task (world s)) = "paused") then
    start_download (set_world (upd_task (set_paused false) (world s)) s)
  else s.

Definition _download_worker (now : Z) (p : worker_pc) (w : World)
    : option (World * worker_pc) :=
  match p with
  | WStatus => Some (upd_task (set_status "downloading") w, WStartTime)
  | WStartTime => Some (upd_task (set_start_time (Some now)) w, WDone)
  | WDone => None
  end.

(** *** Interleavings

    An execution is a list of events; each is one atomic action of one
    thread.  An event that is not enabled has no successor state. *)

Inductive event :=
  | Fetch (k : nat)             (* the thread running future [k] *)
  | Yield (k : nat)             (* as_completed yields future [k] to the loop body *)
  | Orch                        (* any other action of the orchestrator *)
  | Work (j : nat) (now : Z)    (* worker thread [j]; [now] is time.time() *)
  | CallPause                   (* another thread calls task.pause() *)
  | CallResume.                 (* another thread calls task.resume() *)

Definition unfinished (l : list fetcher) : nat :=
  length (filter (fun f => finished (f_pc f) = false) l).

(** A future leaves the queue of the pool only when a worker of the pool is
    free: fewer than [max_workers] of the futures submitted before it are
    still running or queued. *)
Definition pool_admits (s : system) (k : nat) : bool :=
  match orch s with
  | Some o => bool_decide (Z.of_nat (unfinished (take k (fetchers s))) < o_max_workers o)
  | None => true
  end.

Definition all_finished (l : list fetcher) : bool :=
  forallb (fun f => finished (f_pc f)) l.

Definition orchestrator_step (s : system) (o : orchestrator) : option system :=
  match o_pc o with
  | Waiting [] => Some (set_orch_pc (Leaving false) s)
  | Waiting (_ :: _) => None
  | Leaving returning =>
      if all_finished (fetchers s)
      then Some (set_orch_pc (if returning then Finished else AfterPool) s)
      else None
  | AfterPool =>
      let t := task (world s) in
      if negb (paused t) && negb (bool_decide (status t = "error"))
      then Some (set_orch_pc Finished
                   (set_world (_combine_chunks (o_temp_files o) (world s)).1 s))
      else Some (set_orch_pc Finished s)
  | Finished => None
  end.

Definition yield_step (s : system) (o : orchestrator) (k : nat) : option system :=
  match o_pc o with
  | Waiting pending =>
      f ← fetchers s !! k;
      if bool_decide (k ∈ pending) && finished (f_pc f) then
        if paused (task (world s)) then Some (set_orch_pc (Leaving false) s)
        else
          match f_pc f with
          | Raised e =>
              Some (set_orch_pc (Leaving true)
                      (set_world
                         (upd_task
                            (fun t => set_error_message
                                        (Some ("Chunk download failed: " +:+ str e))
                                        (set_status "error" t))
                            (world s)) s))
          | _ => Some (set_orch_pc
                         (Waiting (filter (fun i => i <> k) pending)) s)
          end
      else None
  | _ => None
  end.

Definition step (net : network) (e : event) (s : system) : option system :=
  match e with
  | Fetch k =>
      f ← fetchers s !! k;
      if queued (f_pc f) && negb (pool_admits s k) then None
      else
        '(w', f') ← fetcher_step net f (world s);
        Some {| world := w'; fetchers := <[k := f']> (fetchers s);
                orch := orch s; workers := workers s |}
  | Yield k => o ← orch s; yield_step s o k
  | Orch => o ← orch s; orchestrator_step s o
  | Work j now =>
      p ← workers s !! j;
      '(w', p') ← _download_worker now p (world s);
      Some {| world := w'; fetchers := fetchers s; orch := orch s;
              workers := <[j := p']> (workers s) |}
  | CallPause => Some (set_world (upd_task pause (world s)) s)
  | CallResume => Some (resume s)
  end.

Fixpoint run (net : network) (evs : list event) (s : system) : option system :=
  match evs with
  | [] => Some s
  | e :: evs' => s' ← step net e s; run net evs' s'
  end.

(** ** TaskRegistry: [download_tasks] and the cancel route

    Task objects live on the heap; the registry maps a task identifier to a
    reference, and the threads of a task hold the same reference. *)

Inductive jvalue :=
  | JString (s : string)
  | JBool (b : bool).

Record Server := {
  heap : gmap nat DownloadTask;
  download_tasks : gmap string nat;
  disk : gmap string node
}.

(** The route answers with a JSON object and a status code. *)
Definition cancel_download_route (download_id : string) (sv : Server)
    : Server * (list (string * jvalue) * Z) :=
  match download_tasks sv !! download_id with
  | None => (sv, ([("error", JString "Download not found")], 404))
  | Some r =>
      ({| heap := alter pause r (heap sv);
          download_tasks := delete download_id (download_tasks sv);
          disk := disk sv |},
       ([("status", JString "cancelled"); ("success", JBool true)], 200))
  end.

(** ** Auxiliary notions for the statements below *)

(** The chunk the loop of [_create_chunks] appends at index [i], if any. *)
Definition plan_chunk (chunk_size total : Z) (i : Z) : option chunk :=
  let start := i * chunk_size in
  let end_ := Z.min (start + chunk_size - 1) (total - 1) in
  if start <=? end_ then Some (start, Some end_) else None.

(** A chunk starts before the next one, and ends strictly before it starts. *)
Definition ends_before (c1 c2 : chunk) : Prop :=
  c1.1 < c2.1 /\ exists e1, c1.2 = Some e1 /\ e1 < c2.1.


(** The body of the loop of [_combine_chunks]. *)
Definition combine_body (final_file temp_file : string) : py unit :=
  present ← os_path_exists temp_file;
  if present : bool then
    data ← read_rb temp_file;
    file_write final_file data;;
    os_remove temp_file
  else ret tt.

Definition remove_all (temp_files : list string) (m : gmap string node)
    : gmap string node :=
  foldl (fun m p => delete p m) m temp_files.

(** The futures still in the queue of the pool, or not yet started. *)
Definition count_queued (l : list fetcher) : nat :=
  sum_list ((fun f => if queued (f_pc f) then 1%nat else 0%nat) <$> l).

(** The ways in which one atomic action changes the task object. *)
Inductive task_change (t : DownloadTask) : DownloadTask -> Prop :=
  | tc_same : task_change t t
  | tc_count (n : nat) :
      task_change t (set_downloaded_size (downloaded_size t + Z.of_nat n) t)
  | tc_paused : task_change t (set_status "paused" t)
  | tc_error (msg : string) :
      task_change t (set_error_message (Some msg) (set_status "error" t))
  | tc_downloading : task_change t (set_status "downloading" t)
  | tc_start_time (now : Z) : task_change t (set_start_time (Some now) t)
  | tc_pause : task_change t (pause t)
  | tc_resume (j : nat) :
      status t = "paused" ->
      task_change t (set_thread (Some j) (set_paused false t)).

(** A method body that touches only the file system. *)
Definition fs_only {A} (c : py A) : Prop :=
  forall w, task (c w).1 = task w /\ requests_log (c w).1 = requests_log w.

(** A method body whose only exceptions come from the file system. *)
Definition raises_os_only {A} (c : py A) : Prop :=
  forall w e, (c w).2 = Raise e -> kind e = OSError.

(** A fetcher that has left its loop: it neither writes nor counts again. *)
Definition left_loop (p : pc) : bool :=
  match p with
  | Closing | Returned | Raised _ => true
  | _ => false
  end.

(** The single-part fetcher is the only fetcher of its system, and it has
    left its loop whenever the status reads ["paused"]. *)
Definition single_part_inv (s : system) : Prop :=
  orch s = None /\
  exists f resume_pos,
    fetchers s = [f] /\ f_call f = SinglePart resume_pos /\
    (status (task (world s)) = "paused" -> left_loop (f_pc f) = true).

(** ** Scenarios

    A resource of ten bytes on a range-capable server, for which the planner
    yields the single range [(0, 9)], and three remote sides: one that sends
    twelve bytes, one whose first answer is a connection reset, and one that
    sends the ten bytes in two pieces. *)

Definition demo_task : DownloadTask :=
  set_status "downloading"
    (set_supports_range true
       (set_total_size 10
          (__init__ "id" "http://host/file.bin" "file.bin" "/dl/file.bin" 2))).

Definition demo_world : World :=
  {| task := demo_task; fs := ∅; requests_log := [] |}.

Definition net_oversend : network := fun _ _ =>
  Return {| raise_for_status := None;
            iter_content :=
              [Piece [x30; x31; x32; x33; x34; x35; x36; x37; x38; x39; x3a; x3b]] |}.

Definition net_flaky : network := fun log _ =>
  match log with
  | [] => Raise (Exn TransportError "Connection reset by peer")
  | _ => Return {| raise_for_status := None;
                   iter_content :=
                     [Piece [x30; x31; x32; x33; x34; x35; x36; x37; x38; x39]] |}
  end.

Definition net_ok : network := fun _ _ =>
  Return {| raise_for_status := None;
            iter_content := [Piece [x30; x31; x32; x33; x34];
                             Piece [x35; x36; x37; x38; x39]] |}.


(** A registry with one task, its sink and its output file on disk. *)
Definition cancel_server : Server :=
  {| heap := {[ 0%nat := demo_task ]};
     download_tasks := {[ "id" := 0%nat ]};
     disk := {[ "/dl/file.bin.part0" := File [x30; x31; x32];
                "/dl/file.bin" := File [] ]} |}.

(** ** A fetcher running on its own *)

(** [n] actions of one fetcher in a row, or fewer if it ends before: the
    method run by a thread that nothing else interleaves with. *)
Fixpoint run_fetcher (net : network) (n : nat) (f : fetcher) (w : World)
    : World * fetcher :=
  match n with
  | O => (w, f)
  | Datatypes.S n' =>
      match fetcher_step net f w with
      | Some (w', f') => run_fetcher net n' f' w'
      | None => (w, f)
      end
  end.

(** The file a fetcher writes to, and the exception it leaves its caller with
    when the stream breaks with [e]. *)
Definition sink_of (c : call) (t : DownloadTask) : string :=
  match c with
  | SinglePart _ => full_path t
  | Chunk _ _ temp_file _ => temp_file
  end.

Definition failure_of (c : call) (e : exn) : exn :=
  match c with
  | SinglePart _ => e
  | Chunk _ _ _ chunk_id => chunk_failure chunk_id e
  end.

(** Where a fetcher ends when the stream, after its pieces, continues with
    [rest]: at the end of the body, or at the first break. *)
Definition end_pc (c : call) (rest : list stream_item) : pc :=
  match rest with
  | Broken e :: _ => Raised (failure_of c e)
  | _ => Returned
  end.

Definition ends_stream (rest : list stream_item) : Prop :=
  match rest with
  | Piece _ :: _ => False
  | _ => True
  end.

(** ** The constructor, with its defaults *)

(** [c in s] for a character [c]. *)
Fixpoint has_char (c : ascii) (s : string) : bool :=
  match s with
  | EmptyString => false
  | String c' s' => Ascii.eqb c c' || has_char c s'
  end.

(** [os.path.basename] on POSIX: what follows the last slash; [seg] is what
    has been read since the last slash. *)
Fixpoint basename_from (seg p : string) : string :=
  match p with
  | EmptyString => seg
  | String c p' =>
      if Ascii.eqb c "/" then basename_from "" p'
      else basename_from (seg +:+ String c "") p'
  end.

Definition os_path_basename (p : string) : string := basename_from "" p.

Definition starts_with_slash (s : string) : bool :=
  match s with
  | String c _ => Ascii.eqb c "/"
  | EmptyString => false
  end.

Fixpoint ends_with_slash (s : string) : bool :=
  match s with
  | EmptyString => false
  | String c EmptyString => Ascii.eqb c "/"
  | String _ s' => ends_with_slash s'
  end.

(** [os.path.join(a, b)] on POSIX. *)
Definition os_path_join (a b : string) : string :=
  if starts_with_slash b then b
  else if bool_decide (a = "") || ends_with_slash a then a +:+ b
  else a +:+ "/" +:+ b.

(** [urlparse_path url] stands for [urlparse(url).path], or for the
    [ValueError] that [urlparse] raises on a URL it rejects (an unbalanced
    bracket in the host, for one), and [now] for [int(time.time())]. *)
Definition _get_filename_from_url (urlparse_path : string -> result string)
    (now : Z) (url : string) : result string :=
  match urlparse_path url with
  | Raise e => Raise e
  | Return path =>
      let filename := os_path_basename path in
      if bool_decide (filename = "") || negb (has_char "." filename)
      then Return ("download_" +:+ pretty now)
      else Return filename
  end.

(** [DownloadTask(url, filename, download_path, max_connections)]: [uuid4]
    stands for [str(uuid.uuid4())] and [download_directory] for the module
    constant of that name.  [x or y] takes [y] when [x] is [None] or empty,
    and evaluates [y] only then: the URL is parsed only when no file name is
    given, and the constructor raises what the parsing raises. *)
Definition new_DownloadTask (uuid4 : string)
    (urlparse_path : string -> result string)
    (now : Z) (download_directory : string)
    (url : string) (filename download_path : option string)
    (max_connections : Z) : result DownloadTask :=
  let filename :=
    match filename with
    | Some f => if bool_decide (f = "")
                then _get_filename_from_url urlparse_path now url else Return f
    | None => _get_filename_from_url urlparse_path now url
    end in
  match filename with
  | Raise e => Raise e
  | Return filename =>
      let download_path :=
        match download_path with
        | Some d => if bool_decide (d = "") then download_directory else d
        | None => download_directory
        end in
      Return (__init__ uuid4 url filename (os_path_join download_path filename)
                max_connections)
  end.

(** ** The routes that start, pause and resume a task *)

(** The JSON body of a start request, as far as the route reads it.  For the
    three strings, [None] is a key that is absent or null: [data.get] and the
    tests [not url] and [x or y] treat the two alike.  For [max_connections],
    [None] is an absent key and [Some n] an integer; a request in which a key
    holds a value of another JSON type (a null [max_connections] included) is
    not represented. *)
Record start_body := {
  b_url : option string;
  b_filename : option string;
  b_download_path : option string;
  b_max_connections : option Z
}.

(** The server together with the worker threads started for each task
    object. *)
Record App := {
  server : Server;
  spawned : gmap nat (list worker_pc)
}.

(** A task object of the heap seen with its threads, and back. *)
Definition task_threads (a : App) (r : nat) (t : DownloadTask) : system :=
  {| world := {| task := t; fs := disk (server a); requests_log := [] |};
     fetchers := []; orch := None;
     workers := default [] (spawned a !! r) |}.

Definition store_threads (a : App) (r : nat) (s : system) : App :=
  {| server := {| heap := <[r := task (world s)]> (heap (server a));
                  download_tasks := download_tasks (server a);
                  disk := disk (server a) |};
     spawned := <[r := workers s]> (spawned a) |}.

(** The whole body of the route is inside [try]: an exception raised by the
    constructor is answered with 500 and [str(e)], before anything has been
    registered. *)
Definition start_download_route (uuid4 : string)
    (urlparse_path : string -> result string) (now : Z)
    (download_directory : string)
    (data : option start_body) (a : App)
    : App * (list (string * jvalue) * Z) :=
  match data with
  | None =>
      (a, ([("error", JString "'NoneType' object has no attribute 'get'")], 500))
  | Some data =>
      let url := default "" (b_url data) in
      let max_connections := default 4 (b_max_connections data) in
      if bool_decide (url = "") then
        (a, ([("error", JString "URL is required")], 400))
      else
        match new_DownloadTask uuid4 urlparse_path now download_directory
                url (b_filename data) (b_download_path data) max_connections with
        | Raise e => (a, ([("error", JString (str e))], 500))
        | Return t =>
            let r := fresh (dom (heap (server a))) in
            let registered :=
              {| server := {| heap := <[r := t]> (heap (server a));
                              download_tasks :=
                                <[id t := r]> (download_tasks (server a));
                              disk := disk (server a) |};
                 spawned := delete r (spawned a) |} in
            (store_threads registered r
               (start_download (task_threads registered r t)),
             ([("success", JBool true); ("task_id", JString (id t));
               ("message", JString "Download started successfully")], 200))
        end
  end.

Definition pause_download_route (download_id : string) (sv : Server)
    : Server * (list (string * jvalue) * Z) :=
  match download_tasks sv !! download_id with
  | None => (sv, ([("error", JString "Download not found")], 404))
  | Some r =>
      ({| heap := alter pause r (heap sv);
          download_tasks := download_tasks sv;
          disk := disk sv |},
       ([("status", JString "paused"); ("success", JBool true)], 200))
  end.

Definition resume_download_route (download_id : string) (a : App)
    : App * (list (string * jvalue) * Z) :=
  match download_tasks (server a) !! download_id with
  | None => (a, ([("error", JString "Download not found")], 404))
  | Some r =>
      (match heap (server a) !! r with
       | Some t => store_threads a r (resume (task_threads a r t))
       | None => a
       end,
       ([("status", JString "resumed"); ("success", JBool true)], 200))
  end.

(** ** A multipart download against a cooperative server *)







(** * Part II: properties *)

(** ** The segment planner *)

Section planner.

Lemma create_chunks_loop (cs S : Z) (l : list Z) (acc : list chunk) :
  foldl (fun chunks i =>
           let start := i * cs in
           let end_ := Z.min (start + cs - 1) (S - 1) in
           if start <=? end_ then chunks ++ [(start, Some end_)] else chunks)
        acc l
  = acc ++ omap (plan_chunk cs S) l.
Proof.
  revert acc. induction l as [|i l IH]; intros acc; simpl.
  - by rewrite app_nil_r.
  - rewrite IH. unfold plan_chunk at 2. simpl.
    destruct (i * cs <=? Z.min (i * cs + cs - 1) (S - 1)); [|done].
    by rewrite <- app_assoc.
Qed.

(** The multi-connection branch, in closed form. *)
Lemma create_chunks_ranged (self : DownloadTask) :
  supports_range self = true -> 0 < total_size self ->
  max_connections self <> 0 ->
  _create_chunks self
  = Return (omap (plan_chunk
                    (Z.max (total_size self / max_connections self) (1024 * 1024))
                    (total_size self))
                 (seqZ 0 (max_connections self))).
Proof.
  intros Hr HS HN. unfold _create_chunks. rewrite Hr. simpl.
  destruct (Z.leb_spec (total_size self) 0); [lia|].
  destruct (Z.eqb_spec (max_connections self) 0); [done|].
  by rewrite create_chunks_loop.
Qed.

Lemma create_chunks_single (self : DownloadTask) :
  total_size self <= 0 \/ supports_range self = false ->
  _create_chunks self
  = Return [(0, if 0 <? total_size self then Some (total_size self - 1) else None)].
Proof.
  intros H. unfold _create_chunks.
  destruct (supports_range self); simpl.
  - destruct H as [H|H]; [|done].
    destruct (Z.leb_spec (total_size self) 0); [done|lia].
  - done.
Qed.

Lemma plan_chunk_Some cs S i c :
  plan_chunk cs S i = Some c <->
  c = (i * cs, Some (Z.min (i * cs + cs - 1) (S - 1))) /\
  i * cs <= Z.min (i * cs + cs - 1) (S - 1).
Proof.
  unfold plan_chunk. simpl.
  destruct (Z.leb_spec (i * cs) (Z.min (i * cs + cs - 1) (S - 1))); split.
  - intros [= <-]. done.
  - intros [-> _]. done.
  - done.
  - intros [_ ?]. lia.
Qed.

Lemma planned_sorted cs S (n : nat) (m : Z) :
  0 < cs ->
  StronglySorted ends_before (omap (plan_chunk cs S) (seqZ m (Z.of_nat n))).
Proof.
  intros Hcs. revert m. induction n as [|n IH]; intros m.
  - rewrite seqZ_nil by lia. constructor.
  - rewrite seqZ_cons by lia.
    replace (Z.pred (Z.of_nat (Datatypes.S n))) with (Z.of_nat n) by lia.
    simpl. destruct (plan_chunk cs S m) as [c|] eqn:Hc; [|apply IH].
    constructor; [apply IH|].
    apply Forall_forall. intros c2 Hin.
    apply list_elem_of_omap in Hin as (i & Hi & Hc2).
    apply elem_of_seqZ in Hi.
    apply plan_chunk_Some in Hc as [-> _].
    apply plan_chunk_Some in Hc2 as [-> _].
    split; [simpl; nia|]. eexists. split; [done|]. simpl. nia.
Qed.

Lemma StronglySorted_lookup_lt {A} (R : A -> A -> Prop) (l : list A) (i j : nat) x y :
  StronglySorted R l -> (i < j)%nat -> l !! i = Some x -> l !! j = Some y -> R x y.
Proof.
  intros HS. revert i j. induction HS as [|a l HS IH Hall]; intros i j Hij Hi Hj.
  - done.
  - destruct j as [|j]; [lia|]. destruct i as [|i]; simpl in *.
    + injection Hi as <-. rewrite Forall_forall in Hall.
      apply Hall. by eapply list_elem_of_lookup_2.
    + eapply IH; [|done..]. lia.
Qed.


Lemma sorted_non_overlapping (l : list chunk) :
  StronglySorted ends_before l -> non_overlapping l.
Proof.
  intros HS i j c1 c2 b Hij Hi Hj [[H1 H1'] [H2 H2']].
  destruct (Nat.lt_total i j) as [Hlt|[->|Hlt]]; [|done|].
  - destruct (StronglySorted_lookup_lt _ _ _ _ _ _ HS Hlt Hi Hj) as (_ & e & He & Hlt').
    rewrite He in H1'. lia.
  - destruct (StronglySorted_lookup_lt _ _ _ _ _ _ HS Hlt Hj Hi) as (_ & e & He & Hlt').
    rewrite He in H2'. lia.
Qed.

Lemma create_chunks_sorted (self : DownloadTask) (l : list chunk) :
  _create_chunks self = Return l -> StronglySorted ends_before l.
Proof.
  intros H.
  destruct (decide (total_size self <= 0 \/ supports_range self = false)) as [Hs|Hs].
  - rewrite create_chunks_single in H by done. injection H as <-.
    repeat constructor.
  - assert (supports_range self = true) as Hr by (destruct (supports_range self); tauto).
    assert (0 < total_size self) as HS by lia.
    destruct (decide (max_connections self = 0)) as [HN|HN].
    { unfold _create_chunks in H. rewrite Hr, HN in H. simpl in H.
      destruct (Z.leb_spec (total_size self) 0); [lia|done]. }
    rewrite create_chunks_ranged in H by done. injection H as <-.
    destruct (Z.le_gt_cases (max_connections self) 0).
    + rewrite seqZ_nil by lia. constructor.
    + rewrite <- (Z2Nat.id (max_connections self)) at 2 by lia.
      apply planned_sorted. lia.
Qed.

(** The planner fails only on a division by zero. *)
Lemma create_chunks_returns (self : DownloadTask) :
  max_connections self <> 0 -> exists l, _create_chunks self = Return l.
Proof.
  intros HN. unfold _create_chunks.
  destruct (negb (supports_range self) || (total_size self <=? 0)); [eauto|].
  destruct (Z.eqb_spec (max_connections self) 0); [done|eauto].
Qed.

(** The ranges planned over a range-capable server cover the first
    [min S (N * chunk_size)] bytes, and nothing else. *)
Lemma create_chunks_covers (self : DownloadTask) (l : list chunk) (b : Z) :
  supports_range self = true -> 0 < total_size self -> 1 <= max_connections self ->
  _create_chunks self = Return l ->
  covered l b <->
  0 <= b < Z.min (total_size self)
                 (max_connections self *
                  Z.max (total_size self / max_connections self) (1024 * 1024)).
Proof.
  intros Hr HS HN H. rewrite create_chunks_ranged in H by (done || lia).
  injection H as <-.
  set (cs := Z.max _ _). assert (0 < cs) as Hcs by (unfold cs; lia).
  unfold covered. split.
  - intros (c & Hin & Hs & He).
    apply list_elem_of_omap in Hin as (i & Hi & Hc).
    apply elem_of_seqZ in Hi. apply plan_chunk_Some in Hc as [-> Hle].
    simpl in *. nia.
  - intros Hb. exists (b / cs * cs, Some (Z.min (b / cs * cs + cs - 1) (total_size self - 1))).
    pose proof (Z.div_mod b cs ltac:(lia)) as Hdm.
    pose proof (Z.mod_pos_bound b cs Hcs) as Hmod.
    assert (0 <= b / cs) by (apply Z.div_pos; lia).
    split.
    + apply list_elem_of_omap. exists (b / cs). split.
      * apply elem_of_seqZ. nia.
      * apply plan_chunk_Some. split; [done|]. nia.
    + split; simpl; nia.
Qed.

(** When the quotient [S // N] is at least 1 MiB and [N] does not divide [S],
    the last byte of the resource lies in no planned range. *)
Lemma create_chunks_remainder_lost (self : DownloadTask) (l : list chunk) :
  supports_range self = true -> 1 <= max_connections self ->
  1024 * 1024 <= total_size self / max_connections self ->
  total_size self mod max_connections self <> 0 ->
  _create_chunks self = Return l ->
  ~ covered l (total_size self - 1).
Proof.
  intros Hr HN Hq Hm H.
  assert (0 < total_size self) as HS.
  { destruct (Z.le_gt_cases (total_size self) 0) as [Hle|]; [|done].
    pose proof (Z.div_le_upper_bound (total_size self) (max_connections self) 0
                  ltac:(lia) ltac:(lia)). lia. }
  rewrite (create_chunks_covers self l _ Hr HS HN H).
  pose proof (Z.div_mod (total_size self) (max_connections self) ltac:(lia)).
  pose proof (Z.mod_pos_bound (total_size self) (max_connections self) ltac:(lia)).
  nia.
Qed.

(** A probe answer without [accept-ranges: bytes] leaves the task without
    range support, and one without [content-length] leaves the size as it
    was. *)
Lemma check_range_support_no_ranges (self : DownloadTask) (r : head_response) :
  accept_ranges r <> Some "bytes" ->
  supports_range (_check_range_support (Return r) self).2 = false.
Proof.
  intros H. unfold _check_range_support.
  rewrite bool_decide_eq_false_2 by done.
  by destruct (content_length r) as [[n|e]|].
Qed.

Lemma check_range_support_no_length (self : DownloadTask) (r : head_response) :
  content_length r = None ->
  total_size (_check_range_support (Return r) self).2 = total_size self.
Proof. intros H. unfold _check_range_support. by rewrite H. Qed.

(** C1, at a failing input.  A resource of 10,000,001 bytes planned over 4
    connections on a range-capable server: the four ranges end at byte
    9,999,999 and the last byte of the resource, at offset 10,000,000, lies in
    none of them.  The quotient of the integer division is used as the size
    of every chunk, the last one included, so the remainder is dropped. *)
Theorem planner_drops_remainder :
  let self :=
    set_supports_range true
      (set_total_size 10000001
         (__init__ "id" "http://host/file.bin" "file.bin" "/dl/file.bin" 4)) in
  _create_chunks self
  = Return [(0, Some 2499999); (2500000, Some 4999999);
            (5000000, Some 7499999); (7500000, Some 9999999)]
  /\ 0 <= 10000000 < total_size self
  /\ ~ covered [(0, Some 2499999); (2500000, Some 4999999);
                (5000000, Some 7499999); (7500000, Some 9999999)] 10000000.
Proof.
  simpl. split; [by vm_compute|]. split; [lia|].
  intros (c & Hin & Hs & He).
  repeat (apply elem_of_cons in Hin as [->|Hin]; [simpl in *; lia|]).
  by apply elem_of_nil in Hin.
Qed.

(** C7, as stated, fails: without range support but with a known size the
    single segment has the closed end [total_size - 1], not an open one. *)
Lemma single_segment_open_end_counterexample :
  ~ (forall self : DownloadTask,
       total_size self <= 0 \/ supports_range self = false ->
       _create_chunks self = Return [(0, None)]).
Proof.
  intros H.
  specialize (H (set_total_size 100
                   (__init__ "id" "http://host/file.bin" "file.bin" "/dl/file.bin" 4))).
  simpl in H. specialize (H (or_intror eq_refl)). vm_compute in H. discriminate.
Qed.

(** C7, amended.  When the total size is unknown or the server does not
    support byte ranges, the planner produces exactly one segment, starting at
    offset 0: its end is open when the size is unknown, and is the last byte,
    [total_size - 1], when the size is known. *)
Theorem single_segment (self : DownloadTask) :
  total_size self <= 0 \/ supports_range self = false ->
  exists e : option Z,
    _create_chunks self = Return [(0, e)] /\
    (total_size self <= 0 -> e = None) /\
    (0 < total_size self ->
     e = Some (total_size self - 1) /\
     forall b, covered [(0, e)] b <-> 0 <= b < total_size self).
Proof.
  intros H. eexists. split; [by apply create_chunks_single|].
  destruct (Z.ltb_spec 0 (total_size self)); split; try lia; try done.
  intros _. split; [done|]. intros b. unfold covered, in_chunk. split.
  - intros (c & ->%list_elem_of_singleton & ? & ?). simpl in *. lia.
  - intros ?. eexists. split; [by apply list_elem_of_singleton|]. simpl. lia.
Qed.

Lemma single_segment_witness :
  exists e : option Z,
    _create_chunks (set_total_size 100
                      (__init__ "id" "http://host/file.bin" "file.bin" "/dl/file.bin" 4))
    = Return [(0, e)] /\
    (100 <= 0 -> e = None) /\
    (0 < 100 -> e = Some (100 - 1) /\ forall b, covered [(0, e)] b <-> 0 <= b < 100).
Proof.
  apply (single_segment
           (set_total_size 100
              (__init__ "id" "http://host/file.bin" "file.bin" "/dl/file.bin" 4))).
  right. reflexivity.
Defined.

(** C8.  Whatever the total size and the connection count, the planner either
    returns a list of ranges no two of which share a byte offset, or raises
    on the division by a connection count of zero. *)
Theorem planner_non_overlapping (self : DownloadTask) :
  match _create_chunks self with
  | Return l => non_overlapping l
  | Raise e => max_connections self = 0 /\ kind e = ZeroDivisionError
  end.
Proof.
  destruct (_create_chunks self) as [l|e] eqn:H.
  - by apply sorted_non_overlapping, (create_chunks_sorted self).
  - unfold _create_chunks in H.
    destruct (negb (supports_range self) || (total_size self <=? 0)); [done|].
    destruct (Z.eqb_spec (max_connections self) 0); [|done].
    by injection H as <-.
Qed.

End planner.

(** ** The assembler *)

Section assembler.

Implicit Types (m : gmap string node) (w : World) (p fp : string).

Lemma bind_run {A B} (c : py A) (k : A -> py B) w :
  (c ≫= k) w
  = match c w with
    | (w', Return a) => k a w'
    | (w', Raise e) => (w', Raise e)
    end.
Proof. reflexivity. Qed.

Lemma combine_chunks_unfold (temps : list string) :
  _combine_chunks temps
  = try_except
      (final_file ← get_self full_path;
       open_wb final_file;;
       for_each temps (combine_body final_file))
      (fun e =>
         set_self (set_status "error");;
         set_self (set_error_message
                     (Some ("Failed to combine chunks: " +:+ str e)))).
Proof. reflexivity. Qed.









Lemma remove_all_lookup_ne (temps : list string) m p :
  p ∉ temps -> remove_all temps m !! p = m !! p.
Proof.
  revert m. induction temps as [|q qs IH]; intros m Hin; [done|].
  apply not_elem_of_cons in Hin as [Hne Hin].
  unfold remove_all. simpl. fold (remove_all qs (delete q m)).
  rewrite IH by done. by apply lookup_delete_ne.
Qed.


(** *** Method bodies that touch only the file system *)

Lemma fs_only_bind {A B} (c : py A) (k : A -> py B) :
  fs_only c -> (forall a, fs_only (k a)) -> fs_only (c ≫= k).
Proof.
  intros Hc Hk w. rewrite bind_run. specialize (Hc w).
  destruct (c w) as [w' [a|e]]; simpl in *; [|done].
  destruct (Hk a w') as [-> ->]. done.
Qed.

Lemma fs_only_ret {A} (a : A) : fs_only (ret a).
Proof. done. Qed.

Lemma fs_only_os_path_exists p : fs_only (os_path_exists p).
Proof. done. Qed.

Lemma fs_only_open_wb p : fs_only (open_wb p).
Proof. intros w. unfold open_wb. by repeat case_match. Qed.

Lemma fs_only_open_ab p : fs_only (open_ab p).
Proof. intros w. unfold open_ab. by repeat case_match. Qed.

Lemma fs_only_file_write p d : fs_only (file_write p d).
Proof. intros w. unfold file_write. by repeat case_match. Qed.

Lemma fs_only_read_rb p : fs_only (read_rb p).
Proof. intros w. unfold read_rb. by repeat case_match. Qed.

Lemma fs_only_os_remove p : fs_only (os_remove p).
Proof. intros w. unfold os_remove. by repeat case_match. Qed.

Lemma fs_only_for_each {A} (l : list A) (body : A -> py unit) :
  (forall a, fs_only (body a)) -> fs_only (for_each l body).
Proof.
  intros Hb. induction l as [|a l IH]; simpl; [done|].
  apply fs_only_bind; auto.
Qed.

Lemma fs_only_combine_body fp p : fs_only (combine_body fp p).
Proof.
  unfold combine_body. apply fs_only_bind; [apply fs_only_os_path_exists|].
  intros [|]; [|apply fs_only_ret].
  apply fs_only_bind; [apply fs_only_read_rb|]. intros d.
  apply fs_only_bind; [apply fs_only_file_write|]. intros _.
  apply fs_only_os_remove.
Qed.

Lemma os_only_bind {A B} (c : py A) (k : A -> py B) :
  raises_os_only c -> (forall a, raises_os_only (k a)) -> raises_os_only (c ≫= k).
Proof.
  intros Hc Hk w e. rewrite bind_run. specialize (Hc w).
  destruct (c w) as [w' [a|e']]; simpl in *.
  - apply Hk.
  - intros [= <-]. by apply Hc.
Qed.

Lemma os_only_for_each {A} (l : list A) (body : A -> py unit) :
  (forall a, raises_os_only (body a)) -> raises_os_only (for_each l body).
Proof.
  intros Hb. induction l as [|a l IH]; simpl; [done|].
  apply os_only_bind; auto.
Qed.

Lemma os_only_combine_body fp p : raises_os_only (combine_body fp p).
Proof.
  unfold combine_body. apply os_only_bind; [done|].
  intros [|]; [|done].
  apply os_only_bind.
  { intros w e. unfold read_rb. by repeat case_match; intros [= <-]. }
  intros d. apply os_only_bind.
  { intros w e. unfold file_write. by repeat case_match. }
  intros _ w e. unfold os_remove. by repeat case_match; intros [= <-].
Qed.

(** Whatever the file system holds, assembly returns normally and leaves the
    request log alone; it either leaves the task alone or, when a file
    operation has raised, records the error in it. *)
Lemma combine_chunks_task (temps : list string) w :
  (_combine_chunks temps w).2 = Return tt /\
  requests_log (_combine_chunks temps w).1 = requests_log w /\
  (task (_combine_chunks temps w).1 = task w \/
   exists e,
     kind e = OSError /\
     task (_combine_chunks temps w).1
     = set_error_message (Some ("Failed to combine chunks: " +:+ str e))
         (set_status "error" (task w))).
Proof.
  destruct (_combine_chunks temps w) as [w1 r1] eqn:H. cbn [fst snd].
  rewrite combine_chunks_unfold in H. unfold try_except in H.
  rewrite bind_run in H. unfold get_self at 1 in H. cbn [task] in H.
  pose proof (fs_only_bind (open_wb (full_path (task w)))
                (fun _ => for_each temps (combine_body (full_path (task w))))
                (fs_only_open_wb _)
                (fun _ => fs_only_for_each _ _ (fs_only_combine_body _)) w) as [Ht Hl].
  assert (raises_os_only
            (open_wb (full_path (task w)) ≫=
             fun _ => for_each temps (combine_body (full_path (task w))))) as Hos.
  { apply os_only_bind.
    - intros w0 e. unfold open_wb. by repeat case_match; intros [= <-].
    - intros _. apply os_only_for_each. intros a. apply os_only_combine_body. }
  specialize (Hos w).
  destruct ((open_wb (full_path (task w)) ≫= _) w) as [w' [[]|e]]; simpl in *.
  - injection H as <- <-. auto.
  - injection H as <- <-. simpl. split; [done|]. split; [done|]. right. exists e.
    split; [by apply Hos|]. by rewrite Ht.
Qed.













End assembler.

(** ** Threads: fetchers, orchestrator, workers, and the calls on the task *)

Section threads.

Implicit Types (w : World) (s : system) (net : network).

(** *** One action of a fetcher *)

Lemma requests_get_log net r w :
  task (requests_get net r w).1 = task w /\
  fs (requests_get net r w).1 = fs w /\
  requests_log (requests_get net r w).1 = requests_log w ++ [r].
Proof. unfold requests_get. by repeat case_match. Qed.

Lemma prologue_effect net r (open_ : py unit) w :
  fs_only open_ ->
  let out := (response ← requests_get net r; open_;; ret (iter_content response)) w in
  task out.1 = task w /\ requests_log out.1 = requests_log w ++ [r].
Proof.
  intros Hopen. simpl. rewrite bind_run.
  destruct (requests_get_log net r w) as (Ht & _ & Hl).
  destruct (requests_get net r w) as [w1 [resp|e]]; simpl in *; [|done].
  rewrite bind_run. destruct (Hopen w1) as [Ht1 Hl1].
  destruct (open_ w1) as [w2 [[]|e]]; simpl in *; by rewrite Ht1, Hl1.
Qed.

Lemma download_chunk_effect net start end_ temp_file chunk_id p w w' p' :
  _download_chunk net start end_ temp_file chunk_id p w = Some (w', p') ->
  queued p' = false /\ finished p = false /\
  (task w' = task w \/
   exists n : nat,
     task w' = set_downloaded_size (downloaded_size (task w) + Z.of_nat n) (task w)) /\
  (if queued p then exists r, requests_log w' = requests_log w ++ [r]
   else requests_log w' = requests_log w).
Proof.
  intros H. destruct p as [|body|c body|c body| | |e]; cbn [_download_chunk] in H.
  - match type of H with context [?c w] =>
      pose proof (prologue_effect net
                    {| req_url := url (task w);
                       req_range := Some (range_header start end_) |}
                    (open_wb temp_file) w (fs_only_open_wb _)) as [Ht Hl];
      cbn zeta in Ht, Hl
    end.
    match type of H with context [match ?x with (_, _) => _ end] =>
      destruct x as [w1 [b|e]]
    end; simplify_eq; simpl in *; eauto 10.
  - destruct body as [|[c|e] body]; repeat case_match; simplify_eq; auto.
  - destruct (fs_only_file_write temp_file c w) as [Ht Hl].
    simplify_eq. auto.
  - simplify_eq. simpl. eauto 10.
  - simplify_eq. simpl. auto 10.
  - done.
  - done.
Qed.

Lemma single_part_download_effect net resume_pos p w w' p' :
  _single_part_download net resume_pos p w = Some (w', p') ->
  queued p' = false /\ finished p = false /\
  (task w' = task w \/
   (exists n : nat,
      task w' = set_downloaded_size (downloaded_size (task w) + Z.of_nat n) (task w)) \/
   (task w' = set_status "paused" (task w) /\ p' = Closing)) /\
  (if queued p then exists r, requests_log w' = requests_log w ++ [r]
   else requests_log w' = requests_log w).
Proof.
  intros H. destruct p as [|body|c body|c body| | |e]; cbn [_single_part_download] in H.
  - match type of H with context [requests_get net ?r] =>
      pose proof (prologue_effect net r
                    (if 0 <? resume_pos then open_ab (full_path (task w))
                     else open_wb (full_path (task w))) w
                    ltac:(destruct (0 <? resume_pos);
                          [apply fs_only_open_ab|apply fs_only_open_wb])) as [Ht Hl];
      cbn zeta in Ht, Hl
    end.
    match type of H with context [match ?x with (_, _) => _ end] =>
      destruct x as [w1 [b|e]]
    end; simplify_eq; simpl in *; eauto 10.
  - destruct body as [|[c|e] body]; repeat case_match; simplify_eq; auto 10.
  - destruct (fs_only_file_write (full_path (task w)) c w) as [Ht Hl].
    simplify_eq. auto.
  - simplify_eq. simpl. eauto 10.
  - simplify_eq. simpl. auto 10.
  - done.
  - done.
Qed.

Ltac split_pairs :=
  repeat match goal with
         | x : (_ * _)%type |- _ => destruct x
         end;
  simplify_eq.

Lemma fetcher_step_effect net f w w' f' :
  fetcher_step net f w = Some (w', f') ->
  f_call f' = f_call f /\ queued (f_pc f') = false /\ finished (f_pc f) = false /\
  (task w' = task w \/
   (exists n : nat,
      task w' = set_downloaded_size (downloaded_size (task w) + Z.of_nat n) (task w)) \/
   (task w' = set_status "paused" (task w) /\ f_pc f' = Closing /\
    exists resume_pos, f_call f = SinglePart resume_pos)) /\
  (if queued (f_pc f) then exists r, requests_log w' = requests_log w ++ [r]
   else requests_log w' = requests_log w).
Proof.
  unfold fetcher_step. intros H.
  destruct (f_call f) as [resume_pos|start end_ temp_file chunk_id] eqn:Hcall;
    simplify_option_eq; split_pairs.
  - match goal with H : _single_part_download _ _ _ _ = Some (_, _) |- _ =>
      apply single_part_download_effect in H as (? & ? & Ht & ?)
    end.
    simpl. repeat split; try done.
    destruct Ht as [?|[?|[? ?]]]; eauto 10.
  - match goal with H : _download_chunk _ _ _ _ _ _ _ = Some (_, _) |- _ =>
      apply download_chunk_effect in H as (? & ? & Ht & ?)
    end.
    simpl. repeat split; try done.
    destruct Ht as [?|?]; eauto.
Qed.

(** *** One step of the system *)

Lemma step_fetch_inv net k s s' :
  step net (Fetch k) s = Some s' ->
  exists f w' f',
    fetchers s !! k = Some f /\
    (queued (f_pc f) = true -> pool_admits s k = true) /\
    fetcher_step net f (world s) = Some (w', f') /\
    s' = {| world := w'; fetchers := <[k := f']> (fetchers s);
            orch := orch s; workers := workers s |}.
Proof.
  simpl. intros H. destruct (fetchers s !! k) as [f|]; [|done]. simpl in H.
  destruct (queued (f_pc f) && negb (pool_admits s k)) eqn:Hq; [done|].
  destruct (fetcher_step net f (world s)) as [[w' f']|] eqn:Hf; [|done].
  simpl in H. injection H as <-. exists f, w', f'. repeat split; try done.
  intros Hq'. rewrite Hq' in Hq. by destruct (pool_admits s k).
Qed.

Lemma step_task_change net e s s' :
  step net e s = Some s' -> task_change (task (world s)) (task (world s')).
Proof.
  intros H. destruct e as [k|k| |j now| |]; simpl in H.
  - apply step_fetch_inv in H as (f & w' & f' & _ & _ & H & ->).
    apply fetcher_step_effect in H as (_ & _ & _ & Ht & _).
    simpl. destruct Ht as [->|[[n ->]|[-> _]]]; constructor.
  - destruct (orch s) as [o|]; [|done]. simpl in H. unfold yield_step in H.
    destruct (o_pc o); try done. simplify_option_eq; try constructor.
    all: repeat case_match; simplify_eq; simpl; constructor.
  - destruct (orch s) as [o|]; [|done]. simpl in H. unfold orchestrator_step in H.
    repeat case_match; simplify_eq; simpl; try constructor.
    destruct (combine_chunks_task (o_temp_files o) (world s))
      as (_ & _ & [->|(e & _ & ->)]);
      constructor.
  - simplify_option_eq; split_pairs. unfold _download_worker in *.
    repeat case_match; simplify_eq; simpl; constructor.
  - simplify_eq. simpl. constructor.
  - simplify_eq. unfold resume. case_bool_decide; simpl; by constructor.
Qed.

Lemma task_change_downloaded t t' :
  task_change t t' -> downloaded_size t <= downloaded_size t'.
Proof. destruct 1; simpl; lia. Qed.

Lemma task_change_total t t' : task_change t t' -> total_size t' = total_size t.
Proof. by destruct 1. Qed.

Lemma step_calls net e s s' :
  step net e s = Some s' ->
  f_call <$> fetchers s' = f_call <$> fetchers s /\
  (orch s' = None <-> orch s = None).
Proof.
  intros H. destruct e as [k|k| |j now| |].
  - apply step_fetch_inv in H as (f & w' & f' & Hk & _ & H & ->).
    apply fetcher_step_effect in H as (Hc & _). simpl. split; [|done].
    rewrite list_fmap_insert, Hc. apply list_insert_id.
    by rewrite list_lookup_fmap, Hk.
  - simpl in H. destruct (orch s) as [o|] eqn:Ho; [|done]. simpl in H.
    unfold yield_step in H. destruct (o_pc o); try done.
    simplify_option_eq; repeat case_match; simplify_eq; simpl;
      rewrite ?Ho; by split.
  - simpl in H. destruct (orch s) as [o|] eqn:Ho; [|done]. simpl in H.
    unfold orchestrator_step in H.
    repeat case_match; simplify_eq; simpl; rewrite ?Ho; by split.
  - simpl in H. simplify_option_eq; split_pairs. by split.
  - simpl in H. simplify_eq. by split.
  - simpl in H. simplify_eq. unfold resume. by case_bool_decide.
Qed.

Lemma step_status_other net e s s' :
  step net e s = Some s' -> (forall k, e <> Fetch k) ->
  status (task (world s')) = status (task (world s)) \/
  status (task (world s')) = "error" \/
  status (task (world s')) = "downloading".
Proof.
  intros H Hne. destruct e as [k|k| |j now| |]; simpl in H.
  - by destruct (Hne k).
  - destruct (orch s) as [o|]; [|done]. simpl in H. unfold yield_step in H.
    destruct (o_pc o); try done.
    simplify_option_eq; repeat case_match; simplify_eq; simpl; auto.
  - destruct (orch s) as [o|]; [|done]. simpl in H. unfold orchestrator_step in H.
    repeat case_match; simplify_eq; simpl; auto.
    destruct (combine_chunks_task (o_temp_files o) (world s))
      as (_ & _ & [->|(e & _ & ->)]);
      auto.
  - simplify_option_eq; split_pairs. unfold _download_worker in *.
    repeat case_match; simplify_eq; simpl; auto.
  - simplify_eq. simpl. auto.
  - simplify_eq. unfold resume. case_bool_decide; simpl; auto.
Qed.

(** *** Executions *)

Lemma run_invariant net (P : system -> Prop) :
  (forall e s s', step net e s = Some s' -> P s -> P s') ->
  forall evs s s', run net evs s = Some s' -> P s -> P s'.
Proof.
  intros Hstep evs. induction evs as [|e evs IH]; intros s s' H HP; simpl in H.
  - by simplify_eq.
  - destruct (step net e s) as [s1|] eqn:He; [|done]. simpl in H. eauto.
Qed.

Lemma run_downloaded net evs s s' :
  run net evs s = Some s' ->
  downloaded_size (task (world s)) <= downloaded_size (task (world s')) /\
  total_size (task (world s')) = total_size (task (world s)).
Proof.
  intros H.
  apply (run_invariant net
           (fun x => downloaded_size (task (world s)) <= downloaded_size (task (world x))
                     /\ total_size (task (world x)) = total_size (task (world s)))
           ) with (evs := evs) (s := s); [|done|lia].
  intros e s1 s2 He [? ?]. apply step_task_change in He.
  pose proof (task_change_downloaded _ _ He).
  pose proof (task_change_total _ _ He). split; [lia|congruence].
Qed.

Lemma count_queued_insert (l : list fetcher) (k : nat) (f f' : fetcher) :
  l !! k = Some f ->
  (count_queued (<[k := f']> l) + (if queued (f_pc f) then 1 else 0)
   = count_queued l + (if queued (f_pc f') then 1 else 0))%nat.
Proof.
  unfold count_queued. revert k.
  induction l as [|x l IH]; intros [|k] Hk; csimpl in *; simplify_eq.
  - lia.
  - specialize (IH k Hk). lia.
Qed.

Lemma count_queued_le (l : list fetcher) : (count_queued l <= length l)%nat.
Proof.
  unfold count_queued. induction l as [|x l IH]; csimpl; [lia|].
  destruct (queued (f_pc x)); lia.
Qed.

(** A request is issued by a future that leaves the queue, and by nothing
    else: the requests made and the futures still queued add up to a
    constant. *)
Lemma step_requests net e s s' :
  step net e s = Some s' ->
  (length (requests_log (world s')) + count_queued (fetchers s')
   = length (requests_log (world s)) + count_queued (fetchers s))%nat.
Proof.
  intros H. destruct e as [k|k| |j now| |]; simpl in H.
  - apply step_fetch_inv in H as (f & w' & f' & Hk & _ & H & ->).
    apply fetcher_step_effect in H as (_ & Hq' & _ & _ & Hl). simpl.
    pose proof (count_queued_insert _ _ _ f' Hk) as Hc. rewrite Hq' in Hc.
    destruct (queued (f_pc f)).
    + destruct Hl as [r ->]. rewrite length_app. simpl. lia.
    + rewrite Hl. lia.
  - destruct (orch s) as [o|]; [|done]. simpl in H. unfold yield_step in H.
    destruct (o_pc o); try done.
    by simplify_option_eq; repeat case_match; simplify_eq.
  - destruct (orch s) as [o|]; [|done]. simpl in H. unfold orchestrator_step in H.
    repeat case_match; simplify_eq; simpl; try done.
    by destruct (combine_chunks_task (o_temp_files o) (world s)) as (_ & -> & _).
  - simplify_option_eq; split_pairs. unfold _download_worker in *.
    by repeat case_match; simplify_eq.
  - by simplify_eq.
  - simplify_eq. unfold resume. by case_bool_decide.
Qed.

Lemma run_requests net evs s s' :
  run net evs s = Some s' ->
  (length (requests_log (world s')) + count_queued (fetchers s')
   = length (requests_log (world s)) + count_queued (fetchers s))%nat.
Proof.
  intros H.
  apply (run_invariant net
           (fun x => (length (requests_log (world x)) + count_queued (fetchers x)
                      = length (requests_log (world s)) + count_queued (fetchers s))%nat))
    with (evs := evs) (s := s); [|done|done].
  intros e s1 s2 He <-. by apply step_requests in He.
Qed.

Lemma omap_length_le {A B} (g : A -> option B) (l : list A) :
  (length (omap g l) <= length l)%nat.
Proof.
  induction l as [|x l IH]; csimpl; [lia|]. destruct (g x); simpl; lia.
Qed.

Lemma multipart_download_futures (chunks : list chunk) resume_pos w s :
  _multipart_download chunks resume_pos w = Return s ->
  world s = w /\ (length (fetchers s) <= length chunks)%nat /\
  Forall (fun f => exists start end_ temp_file chunk_id,
                     f_call f = Chunk start end_ temp_file chunk_id) (fetchers s).
Proof.
  unfold _multipart_download. case_match; [done|]. intros [= <-]. simpl.
  split; [done|]. split.
  - etrans; [apply omap_length_le|]. by rewrite length_imap.
  - apply Forall_forall. intros f Hf.
    apply list_elem_of_omap in Hf as ([i [start end_]] & _ & Hf).
    case_match; simplify_eq. simpl. eauto.
Qed.

(** *** Progress accounting *)

(** C5, as stated, fails: nothing bounds the bytes counted by the size the
    probe reported.  A server that sends twelve bytes for a resource probed at
    ten leaves [downloaded_size] at twelve. *)
Lemma downloaded_bound_counterexample :
  ~ (forall (net : network) (w : World) (chunks : list chunk)
            (s s' : system) (evs : list event),
       0 < total_size (task w) ->
       downloaded_size (task w) <= total_size (task w) ->
       _create_chunks (task w) = Return chunks ->
       _multipart_download chunks 0 w = Return s ->
       run net evs s = Some s' ->
       downloaded_size (task (world s')) <= total_size (task (world s'))).
Proof.
  intros H.
  assert (exists s s',
             _multipart_download [(0, Some 9)] 0 demo_world = Return s /\
             run net_oversend [Fetch 0; Fetch 0; Fetch 0; Fetch 0] s = Some s' /\
             downloaded_size (task (world s')) = 12 /\
             total_size (task (world s')) = 10) as (s & s' & H1 & H2 & H3 & H4).
  { eexists _, _. split; [vm_compute; reflexivity|].
    split; [vm_compute; reflexivity|]. split; reflexivity. }
  specialize (H net_oversend demo_world [(0, Some 9)] s s' _
                ltac:(by vm_compute) ltac:(by vm_compute) ltac:(by vm_compute) H1 H2).
  lia.
Qed.

(** C5, amended.  Along every execution, whatever the interleaving of
    fetchers, orchestrator, workers and calls of [pause] and [resume],
    [downloaded_size] never decreases and [total_size] does not change; this
    still holds when the download is entered again on the world that a paused
    execution left behind.  No bound of [downloaded_size] by [total_size] is
    enforced. *)
Theorem downloaded_monotone net (evs1 evs2 : list event) (s0 s1 s2 s3 : system)
    (chunks : list chunk) (resume_pos : Z) :
  run net evs1 s0 = Some s1 ->
  _multipart_download chunks resume_pos (world s1) = Return s2 ->
  run net evs2 s2 = Some s3 ->
  downloaded_size (task (world s0)) <= downloaded_size (task (world s1)) /\
  downloaded_size (task (world s1)) <= downloaded_size (task (world s3)) /\
  total_size (task (world s3)) = total_size (task (world s0)).
Proof.
  intros H1 H2 H3.
  apply run_downloaded in H1 as [? ?]. apply run_downloaded in H3 as [? ?].
  apply multipart_download_futures in H2 as [Hw _]. rewrite Hw in *.
  split; [done|]. split; [done|]. congruence.
Qed.

Lemma downloaded_monotone_witness :
  exists s0 s1 s2 s3,
    _multipart_download [(0, Some 9)] 0 demo_world = Return s0 /\
    run net_ok [Fetch 0; Fetch 0; Fetch 0; Fetch 0; CallPause; Fetch 0;
                Yield 0; Orch; Orch; CallResume] s0 = Some s1 /\
    _multipart_download [(0, Some 9)] 0 (world s1) = Return s2 /\
    run net_ok [Fetch 0; Fetch 0] s2 = Some s3 /\
    downloaded_size (task (world s0)) <= downloaded_size (task (world s1)) /\
    downloaded_size (task (world s1)) <= downloaded_size (task (world s3)) /\
    total_size (task (world s3)) = total_size (task (world s0)).
Proof.
  eexists _, _, _, _.
  split; [vm_compute; reflexivity|].
  split; [vm_compute; reflexivity|].
  split; [vm_compute; reflexivity|].
  split; [vm_compute; reflexivity|].
  eapply (downloaded_monotone net_ok
            [Fetch 0; Fetch 0; Fetch 0; Fetch 0; CallPause; Fetch 0;
             Yield 0; Orch; Orch; CallResume]
            [Fetch 0; Fetch 0] _ _ _ _ [(0, Some 9)] 0);
    vm_compute; reflexivity.
Defined.

(** *** Failures of a fetch *)

(** C4, as stated, fails: a transport failure is not retried.  Against a
    remote side whose first answer is a connection reset and which would
    answer the second request, the task ends in status ["error"] with one
    request made in all. *)
Lemma retry_counterexample :
  ~ (forall (net : network) (w : World) (chunks : list chunk)
            (s s' : system) (evs : list event),
       (forall log r e, net log r = Raise e -> kind e = TransportError) ->
       fs w = ∅ ->
       status (task w) = "downloading" ->
       _create_chunks (task w) = Return chunks ->
       _multipart_download chunks 0 w = Return s ->
       run net evs s = Some s' ->
       status (task (world s')) = "error" ->
       ~ NoDup (requests_log (world s'))).
Proof.
  intros H.
  assert (exists s s',
             _multipart_download [(0, Some 9)] 0 demo_world = Return s /\
             run net_flaky [Fetch 0; Yield 0] s = Some s' /\
             status (task (world s')) = "error" /\
             NoDup (requests_log (world s')))
    as (s & s' & H1 & H2 & H3 & H4).
  { eexists _, _. split; [vm_compute; reflexivity|].
    split; [vm_compute; reflexivity|]. split; [reflexivity|].
    vm_compute. apply NoDup_singleton. }
  apply (H net_flaky demo_world [(0, Some 9)] s s' [Fetch 0; Yield 0]); try done.
  intros log r e. unfold net_flaky. destruct log; [|done]. by intros [= <-].
Qed.

(** C4, amended.  A failed fetch is never retried and no error kind is
    treated apart.  (1) Along every execution a request is issued only by a
    future leaving the queue, so a call of [_multipart_download] issues at
    most one request per chunk.  (2) Whatever the kind of the exception that
    the request, the status check or the stream raises, the fetcher ends at
    once with ["Failed to download chunk i: detail"].  (3) When the orchestrator collects a failed future with the
    pause flag clear, the task enters status ["error"] at that step, with the
    detail ["Chunk download failed: ..."]. *)
Theorem fetch_failure_escalates net :
  (forall (chunks : list chunk) resume_pos w s evs s',
      _multipart_download chunks resume_pos w = Return s ->
      run net evs s = Some s' ->
      (length (requests_log (world s'))
       <= length (requests_log w) + length chunks)%nat) /\
  (forall start end_ temp_file chunk_id w e,
      (requests_get net {| req_url := url (task w);
                           req_range := Some (range_header start end_) |} w).2
      = Raise e ->
      exists w',
        _download_chunk net start end_ temp_file chunk_id Start w
        = Some (w', Raised (chunk_failure chunk_id e)) /\
        task w' = task w /\ fs w' = fs w /\
        length (requests_log w') = Datatypes.S (length (requests_log w))) /\
  (forall start end_ temp_file chunk_id w e body,
      _download_chunk net start end_ temp_file chunk_id (Iter (Broken e :: body)) w
      = Some (w, Raised (chunk_failure chunk_id e))) /\
  (forall s o pending k f e,
      orch s = Some o -> o_pc o = Waiting pending -> k ∈ pending ->
      fetchers s !! k = Some f -> f_pc f = Raised e ->
      paused (task (world s)) = false ->
      exists s',
        step net (Yield k) s = Some s' /\
        status (task (world s')) = "error" /\
        error_message (task (world s'))
        = Some ("Chunk download failed: " +:+ str e) /\
        o_pc <$> orch s' = Some (Leaving true)).
Proof.
  split; [|split; [|split]].
  - intros chunks resume_pos w s evs s' Hs Hrun.
    apply run_requests in Hrun.
    apply multipart_download_futures in Hs as (<- & Hlen & _).
    pose proof (count_queued_le (fetchers s)). lia.
  - intros start end_ temp_file chunk_id w e Hget.
    destruct (requests_get_log net
                {| req_url := url (task w);
                   req_range := Some (range_header start end_) |} w)
      as (Ht & Hf & Hl).
    cbn [_download_chunk]. rewrite bind_run.
    destruct (requests_get net _ w) as [w1 r1]. simpl in *. subst r1.
    exists w1. split; [reflexivity|]. rewrite Hl, length_app. simpl.
    repeat split; (done || lia).
  - done.
  - intros s o pending k f e Ho Hpc Hk Hf He Hp.
    eexists. simpl. rewrite Ho. simpl. unfold yield_step. rewrite Hpc, Hf. simpl.
    rewrite bool_decide_eq_true_2 by done. rewrite He, Hp. simpl.
    split; [reflexivity|]. simpl. rewrite Ho. done.
Qed.

Lemma fetch_failure_escalates_witness :
  exists s s1 s2,
    _multipart_download [(0, Some 9)] 0 demo_world = Return s /\
    run net_flaky [Fetch 0] s = Some s1 /\
    (length (requests_log (world s1)) <= 0 + 1)%nat /\
    (exists w',
        _download_chunk net_flaky 0 (Some 9) "/dl/file.bin.part0" 0 Start demo_world
        = Some (w', Raised (chunk_failure 0
                              (Exn TransportError "Connection reset by peer"))) /\
        task w' = task demo_world /\ fs w' = fs demo_world /\
        length (requests_log w') = 1%nat) /\
    step net_flaky (Yield 0) s1 = Some s2 /\
    status (task (world s2)) = "error".
Proof.
  destruct (fetch_failure_escalates net_flaky) as (Ha & Hb & _ & Hc).
  eexists _, _, _.
  split; [vm_compute; reflexivity|].
  split; [vm_compute; reflexivity|].
  split.
  { eapply (Ha [(0, Some 9)] 0 demo_world _ [Fetch 0]); vm_compute; reflexivity. }
  split.
  { apply (Hb 0 (Some 9) "/dl/file.bin.part0" 0%nat demo_world). reflexivity. }
  match goal with |- step _ _ ?s1 = _ /\ _ =>
    destruct (Hc s1 _ [0%nat] 0%nat _ _ eq_refl eq_refl
                ltac:(by apply list_elem_of_singleton) eq_refl eq_refl eq_refl)
      as (s2 & Hs2 & Hst & _)
  end.
  vm_compute in Hs2. injection Hs2 as <-. split; reflexivity.
Defined.

(** *** Pause, resume and cancel *)

(** C6, as stated, fails: [pause] returns at once.  In a multipart download
    whose fetcher has passed the test of the flag, the status after the call
    is still ["downloading"], and the fetcher's next action writes its piece
    to the sink. *)
Lemma pause_synchronous_counterexample :
  ~ (forall (net : network) (w : World) (chunks : list chunk)
            (s0 s s1 : system) (evs : list event),
       status (task w) = "downloading" ->
       _create_chunks (task w) = Return chunks ->
       _multipart_download chunks 0 w = Return s0 ->
       run net evs s0 = Some s ->
       step net CallPause s = Some s1 ->
       status (task (world s1)) = "paused" /\
       forall k s2, step net (Fetch k) s1 = Some s2 ->
                    fs (world s2) = fs (world s1)).
Proof.
  intros H.
  assert (exists s0 s s1 s2,
             _multipart_download [(0, Some 9)] 0 demo_world = Return s0 /\
             run net_ok [Fetch 0; Fetch 0] s0 = Some s /\
             step net_ok CallPause s = Some s1 /\
             step net_ok (Fetch 0) s1 = Some s2 /\
             status (task (world s1)) = "downloading" /\
             fs (world s1) !! "/dl/file.bin.part0" = Some (File []) /\
             fs (world s2) !! "/dl/file.bin.part0"
             = Some (File [x30; x31; x32; x33; x34]))
    as (s0 & s & s1 & s2 & H0 & H1 & H2 & H3 & H4 & H5 & H6).
  { eexists _, _, _, _. split; [vm_compute; reflexivity|].
    split; [vm_compute; reflexivity|]. split; [vm_compute; reflexivity|].
    split; [vm_compute; reflexivity|]. split; [reflexivity|].
    split; vm_compute; reflexivity. }
  destruct (H net_ok demo_world [(0, Some 9)] s0 s s1 [Fetch 0; Fetch 0])
    as [Hst Hfs]; try done.
  rewrite H4 in Hst. discriminate.
Qed.

(** A fetcher that has left its loop has one action left at most, which
    changes nothing. *)
Lemma fetcher_step_left_loop net f w w' f' :
  left_loop (f_pc f) = true ->
  fetcher_step net f w = Some (w', f') ->
  w' = w /\ f_pc f' = Returned.
Proof.
  unfold fetcher_step. intros Hl H.
  destruct (f_call f), (f_pc f); try done; simpl in H; by simplify_eq.
Qed.

Lemma single_part_inv_step net e s s' :
  step net e s = Some s' -> single_part_inv s -> single_part_inv s'.
Proof.
  intros H (Ho & f & rp & Hf & Hc & Hfin).
  pose proof (step_calls _ _ _ _ H) as [Hcalls Horch].
  split; [by apply Horch|].
  destruct e as [k|k| |j now| |].
  - apply step_fetch_inv in H as (f0 & w' & f' & Hk & _ & H & ->).
    rewrite Hf in Hk. destruct k as [|k]; [|done]. simpl in Hk. simplify_eq.
    pose proof (fun Hl => fetcher_step_left_loop net f0 (world s) w' f' Hl H)
      as Hstay.
    apply fetcher_step_effect in H as (Hc' & _ & Hnf & Ht & _).
    exists f', rp. simpl. rewrite Hf. split; [done|]. split; [congruence|].
    intros Hp. destruct Ht as [Ht|[[n Ht]|(_ & -> & _)]]; [| |done].
    + rewrite Ht in Hp. destruct (Hstay (Hfin Hp)) as [_ ->]. done.
    + rewrite Ht in Hp. destruct (Hstay (Hfin Hp)) as [_ ->]. done.
  - simpl in H. by rewrite Ho in H.
  - simpl in H. by rewrite Ho in H.
  - exists f, rp. pose proof (step_status_other _ _ _ _ H ltac:(done)) as Hs.
    simpl in H. simplify_option_eq; split_pairs. simpl in *.
    repeat split; try done. intros Hp. apply Hfin.
    destruct Hs as [Hs|[Hs|Hs]]; congruence.
  - simpl in H. simplify_eq. by exists f, rp.
  - simpl in H. simplify_eq. exists f, rp. unfold resume.
    case_bool_decide; simpl; auto.
Qed.

(** Once every fetcher has left its loop, in a system without orchestrator,
    the byte counter stays where it is: no thread is left that counts. *)
Lemma left_loop_counter_step net e s s' :
  step net e s = Some s' ->
  orch s = None /\ Forall (fun f => left_loop (f_pc f) = true) (fetchers s) ->
  (orch s' = None /\ Forall (fun f => left_loop (f_pc f) = true) (fetchers s')) /\
  downloaded_size (task (world s')) = downloaded_size (task (world s)).
Proof.
  intros H [Ho Hall]. destruct e as [k|k| |j now| |].
  - apply step_fetch_inv in H as (f & w' & f' & Hk & _ & H & ->).
    pose proof (Forall_lookup_1 _ _ _ _ Hall Hk) as Hl.
    apply (fetcher_step_left_loop _ _ _ _ _ Hl) in H as [-> Hr]. simpl.
    split; [|done]. split; [done|].
    apply Forall_insert; [done|]. by rewrite Hr.
  - simpl in H. by rewrite Ho in H.
  - simpl in H. by rewrite Ho in H.
  - simpl in H. simplify_option_eq; split_pairs. unfold _download_worker in *.
    by repeat case_match; simplify_eq.
  - simpl in H. by simplify_eq.
  - simpl in H. simplify_eq. unfold resume. by case_bool_decide.
Qed.

Lemma left_loop_counter_run net evs s s' :
  run net evs s = Some s' ->
  orch s = None -> Forall (fun f => left_loop (f_pc f) = true) (fetchers s) ->
  downloaded_size (task (world s')) = downloaded_size (task (world s)).
Proof.
  intros H Ho Hall.
  apply (run_invariant net
           (fun x => (orch x = None /\
                      Forall (fun f => left_loop (f_pc f) = true) (fetchers x)) /\
                     downloaded_size (task (world x))
                     = downloaded_size (task (world s))))
    with (evs := evs) (s := s); [|done|done].
  intros e s1 s2 He [Hinv <-]. by apply left_loop_counter_step in He.
Qed.

(** C6, amended.  [pause] only sets the flag: it returns at once and changes
    neither the status nor any fetcher.  A fetcher consults the flag at the
    head of its loop only.  One that has passed the test goes on, flag or no
    flag: it hands its piece to [file.write] and counts it.  One that comes
    to the test with the flag set leaves its loop there, without counting the
    piece it was handed.  A multipart fetcher returns at that point and
    leaves the task alone.  A single-part fetcher sets the status to
    ["paused"] itself and has then still to leave the [with] block that
    closes its file: the status reads ["paused"] while that thread is not
    yet finished.  What holds from the moment the status of a single-part
    download reads ["paused"] is that the byte counter no longer moves. *)
Theorem pause_sets_flag_only net :
  (forall s, exists s',
      step net CallPause s = Some s' /\
      status (task (world s')) = status (task (world s)) /\
      paused (task (world s')) = true /\
      fetchers s' = fetchers s /\ fs (world s') = fs (world s)) /\
  (forall f w chunk body,
      f_pc f = Writing chunk body ->
      exists w1 f1 w2 f2,
        fetcher_step net f w = Some (w1, f1) /\
        w1 = (file_write (sink_of (f_call f) (task w)) chunk w).1 /\
        f_pc f1 = Counting chunk body /\
        fetcher_step net f1 w1 = Some (w2, f2) /\
        f_pc f2 = Iter body /\
        downloaded_size (task w2)
        = downloaded_size (task w) + Z.of_nat (length chunk) /\
        status (task w2) = status (task w)) /\
  (forall f w chunk body,
      paused (task w) = true -> f_pc f = Iter (Piece chunk :: body) ->
      exists w' f',
        fetcher_step net f w = Some (w', f') /\
        left_loop (f_pc f') = true /\
        downloaded_size (task w') = downloaded_size (task w) /\
        match f_call f with
        | Chunk _ _ _ _ => task w' = task w /\ f_pc f' = Returned
        | SinglePart _ =>
            w' = upd_task (set_status "paused") w /\
            finished (f_pc f') = false /\
            exists w'' f'', fetcher_step net f' w' = Some (w'', f'') /\
                            f_pc f'' = Returned /\ task w'' = task w'
        end) /\
  (forall resume_pos w evs s1 evs' s2,
      status (task w) <> "paused" ->
      run net evs (single_part_system resume_pos w) = Some s1 ->
      status (task (world s1)) = "paused" ->
      run net evs' s1 = Some s2 ->
      downloaded_size (task (world s2)) = downloaded_size (task (world s1))).
Proof.
  split; [|split; [|split]].
  - intros s. eexists. split; [reflexivity|]. done.
  - intros f w chunk body Hpc. unfold fetcher_step.
    destruct f as [[rp|start end_ temp_file chunk_id] p]; simpl in Hpc; subst p;
      cbn [f_call f_pc sink_of _single_part_download _download_chunk mbind
           option_bind].
    + eexists _, _, _, _. split; [reflexivity|]. split; [reflexivity|].
      split; [reflexivity|]. cbn [f_call f_pc _single_part_download mbind
                                  option_bind].
      split; [reflexivity|]. split; [reflexivity|].
      destruct (fs_only_file_write (full_path (task w)) chunk w) as [Ht _].
      cbn [upd_task set_task task set_downloaded_size downloaded_size status].
      by rewrite Ht.
    + eexists _, _, _, _. split; [reflexivity|]. split; [reflexivity|].
      split; [reflexivity|]. cbn [f_call f_pc _download_chunk mbind
                                  option_bind].
      split; [reflexivity|]. split; [reflexivity|].
      destruct (fs_only_file_write temp_file chunk w) as [Ht _].
      cbn [upd_task set_task task set_downloaded_size downloaded_size status].
      by rewrite Ht.
  - intros f w chunk body Hp Hpc. unfold fetcher_step.
    destruct (f_call f) as [rp|start end_ temp_file chunk_id];
      rewrite Hpc; simpl; rewrite Hp; simpl.
    + eexists _, _. split; [reflexivity|]. simpl.
      repeat (split; [reflexivity|]). by eexists _, _.
    + eexists _, _. split; [reflexivity|]. done.
  - intros resume_pos w evs s1 evs' s2 Hst Hrun Hp Hrun'.
    assert (single_part_inv s1) as (Ho & f & rp & Hf & _ & Hfin).
    { eapply (run_invariant net single_part_inv); [|done|].
      - intros e x x'. apply single_part_inv_step.
      - split; [done|]. eexists _, resume_pos. simpl. repeat split. done. }
    apply (left_loop_counter_run net evs' s1 s2 Hrun' Ho).
    rewrite Hf. repeat constructor. by apply Hfin.
Qed.

Lemma pause_sets_flag_only_witness :
  (exists w1 f1 w2 f2,
      fetcher_step net_ok
        {| f_call := Chunk 0 (Some 9) "/dl/file.bin.part0" 0;
           f_pc := Writing [x30; x31; x32; x33; x34] [] |}
        (upd_task pause demo_world) = Some (w1, f1) /\
      w1 = (file_write "/dl/file.bin.part0" [x30; x31; x32; x33; x34]
              (upd_task pause demo_world)).1 /\
      f_pc f1 = Counting [x30; x31; x32; x33; x34] [] /\
      fetcher_step net_ok f1 w1 = Some (w2, f2) /\
      f_pc f2 = Iter [] /\
      downloaded_size (task w2) = 0 + Z.of_nat 5 /\
      status (task w2) = "downloading") /\
  (exists w' f',
      fetcher_step net_ok
        {| f_call := SinglePart 0;
           f_pc := Iter [Piece [x35; x36; x37; x38; x39]] |}
        (upd_task pause demo_world) = Some (w', f') /\
      left_loop (f_pc f') = true /\
      downloaded_size (task w') = 0 /\
      w' = upd_task (set_status "paused") (upd_task pause demo_world) /\
      finished (f_pc f') = false /\
      exists w'' f'', fetcher_step net_ok f' w' = Some (w'', f'') /\
                      f_pc f'' = Returned /\ task w'' = task w') /\
  (exists s1 s2,
      run net_ok [Fetch 0; Fetch 0; Fetch 0; CallPause; Fetch 0; Fetch 0]
        (single_part_system 0 demo_world) = Some s1 /\
      status (task (world s1)) = "paused" /\
      all_finished (fetchers s1) = false /\
      run net_ok [CallResume; Fetch 0; Work 0 7; Work 0 7] s1 = Some s2 /\
      status (task (world s2)) = "downloading" /\
      downloaded_size (task (world s2)) = downloaded_size (task (world s1))).
Proof.
  destruct (pause_sets_flag_only net_ok) as (_ & Ha & Hb & Hc).
  split; [|split].
  - apply (Ha {| f_call := Chunk 0 (Some 9) "/dl/file.bin.part0" 0;
                 f_pc := Writing [x30; x31; x32; x33; x34] [] |}
              (upd_task pause demo_world) [x30; x31; x32; x33; x34] []);
      reflexivity.
  - apply (Hb {| f_call := SinglePart 0;
                 f_pc := Iter [Piece [x35; x36; x37; x38; x39]] |}
              (upd_task pause demo_world) [x35; x36; x37; x38; x39] []);
      reflexivity.
  - eexists _, _. split; [vm_compute; reflexivity|]. split; [reflexivity|].
    split; [reflexivity|].
    split; [vm_compute; reflexivity|]. split; [reflexivity|].
    eapply (Hc 0 demo_world
              [Fetch 0; Fetch 0; Fetch 0; CallPause; Fetch 0; Fetch 0] _
              [CallResume; Fetch 0; Work 0 7; Work 0 7]).
    + by vm_compute.
    + vm_compute; reflexivity.
    + reflexivity.
    + vm_compute; reflexivity.
Defined.

(** C10.  On a task whose status is not ["paused"], [resume] changes nothing:
    the pause flag, the thread attribute, the set of worker threads and
    everything else are as they were, whatever the status is otherwise. *)
Theorem resume_not_paused_noop (s : system) :
  status (task (world s)) <> "paused" ->
  resume s = s /\
  forall net, step net CallResume s = Some s.
Proof.
  intros H.
  assert (resume s = s) as Hr.
  { unfold resume. by rewrite bool_decide_eq_false_2. }
  split; [done|]. intros net. simpl. by rewrite Hr.
Qed.

Lemma resume_not_paused_noop_witness :
  let s := {| world := upd_task pause demo_world;
              fetchers := [{| f_call := Chunk 0 (Some 9) "/dl/file.bin.part0" 0;
                              f_pc := Returned |}];
              orch := None; workers := [WDone] |} in
  resume s = s /\ forall net, step net CallResume s = Some s.
Proof.
  intros s. apply (resume_not_paused_noop s). by vm_compute.
Defined.

(** On a paused task, [resume] clears the flag and starts one worker. *)
Lemma resume_paused (s : system) :
  status (task (world s)) = "paused" ->
  paused (task (world (resume s))) = false /\
  workers (resume s) = workers s ++ [WStatus] /\
  thread (task (world (resume s))) = Some (length (workers s)).
Proof.
  intros H. unfold resume. rewrite bool_decide_eq_true_2 by done. done.
Qed.

(** *** The cancel route *)

(** C3, as stated, fails: after the cancel route the task object still has
    the status it had, and the sink and the output file are still on disk. *)
Lemma cancel_counterexample :
  ~ (forall (sv : Server) (download_id : string) (r : nat) (t : DownloadTask),
       download_tasks sv !! download_id = Some r ->
       heap sv !! r = Some t ->
       status t = "downloading" ->
       let sv' := (cancel_download_route download_id sv).1 in
       (exists t', heap sv' !! r = Some t' /\ status t' = "cancelled") /\
       disk sv' !! full_path t = None /\
       forall i : nat, disk sv' !! part_name (full_path t) i = None).
Proof.
  intros H.
  destruct (H cancel_server "id" 0%nat demo_task eq_refl eq_refl eq_refl)
    as (_ & Hout & _).
  vm_compute in Hout. discriminate.
Qed.

(** C3, amended.  The cancel route sets the pause flag of the task, so that
    its fetchers stop when they next test it, and removes the task from the
    registry.  It leaves the status of the task as it was: there is no
    cancelled status.  It removes no file: sinks and output stay on disk. *)
Theorem cancel_sets_flag_and_unregisters (sv : Server) (download_id : string)
    (r : nat) (t : DownloadTask) :
  download_tasks sv !! download_id = Some r ->
  heap sv !! r = Some t ->
  let out := cancel_download_route download_id sv in
  heap out.1 !! r = Some (pause t) /\
  status (pause t) = status t /\ paused (pause t) = true /\
  download_tasks out.1 !! download_id = None /\
  disk out.1 = disk sv /\
  out.2 = ([("status", JString "cancelled"); ("success", JBool true)], 200).
Proof.
  intros Hr Ht. unfold cancel_download_route. rewrite Hr. simpl.
  rewrite lookup_alter_eq, Ht, lookup_delete_eq. done.
Qed.

Lemma cancel_sets_flag_and_unregisters_witness :
  let out := cancel_download_route "id" cancel_server in
  heap out.1 !! 0%nat = Some (pause demo_task) /\
  status (pause demo_task) = status demo_task /\
  paused (pause demo_task) = true /\
  download_tasks out.1 !! "id" = None /\
  disk out.1 = disk cancel_server /\
  out.2 = ([("status", JString "cancelled"); ("success", JBool true)], 200).
Proof.
  apply (cancel_sets_flag_and_unregisters cancel_server "id" 0%nat demo_task);
    reflexivity.
Defined.

End threads.

(** * Part III: further properties of the engine *)

Ltac break_pairs :=
  repeat match goal with
         | x : (_ * _)%type |- _ => destruct x
         end;
  simplify_eq.

(** ** The plan in closed form *)

Section plan_shape.

Lemma omap_all_Some {A B} (f : A -> option B) (g : A -> B) (l : list A) :
  (forall x, x ∈ l -> f x = Some (g x)) -> omap f l = g <$> l.
Proof.
  induction l as [|x l IH]; intros H; csimpl; [done|].
  rewrite (H x) by left. simpl. f_equal. apply IH. intros y Hy. apply H. by right.
Qed.

Lemma omap_all_None {A B} (f : A -> option B) (l : list A) :
  (forall x, x ∈ l -> f x = None) -> omap f l = [].
Proof.
  induction l as [|x l IH]; intros H; csimpl; [done|].
  rewrite (H x) by left. apply IH. intros y Hy. apply H. by right.
Qed.

(** The number of chunks that start inside the resource. *)
Lemma plan_closed_form (cs S N : Z) :
  0 < cs -> 0 < S -> 0 <= N ->
  omap (plan_chunk cs S) (seqZ 0 N)
  = (fun i => (i * cs, Some (Z.min (i * cs + cs - 1) (S - 1))))
      <$> seqZ 0 (Z.min N ((S + cs - 1) / cs)).
Proof.
  intros Hcs HS HN.
  set (m := Z.min N ((S + cs - 1) / cs)).
  pose proof (Z.div_mod (S + cs - 1) cs ltac:(lia)) as Hdm.
  pose proof (Z.mod_pos_bound (S + cs - 1) cs Hcs) as Hmod.
  assert (0 <= (S + cs - 1) / cs) by (apply Z.div_pos; lia).
  assert (0 <= m <= N) by lia.
  replace N with (m + (N - m)) at 1 by lia.
  rewrite seqZ_app by lia. rewrite omap_app.
  rewrite (omap_all_Some _ (fun i => (i * cs, Some (Z.min (i * cs + cs - 1) (S - 1))))).
  - rewrite omap_all_None; [by rewrite app_nil_r|].
    intros i Hi%elem_of_seqZ. unfold plan_chunk. simpl.
    destruct (Z.leb_spec (i * cs) (Z.min (i * cs + cs - 1) (S - 1))); [|done].
    exfalso. nia.
  - intros i Hi%elem_of_seqZ. unfold plan_chunk. simpl.
    destruct (Z.leb_spec (i * cs) (Z.min (i * cs + cs - 1) (S - 1))); [done|].
    exfalso. nia.
Qed.

(** X1.  Over a range-capable server with a known size, the plan covers the
    whole resource exactly when the connection count divides the size, or the
    quotient is below the minimum chunk size of 1 MiB. *)
Theorem planner_complete_iff (self : DownloadTask) (l : list chunk) :
  supports_range self = true -> 0 < total_size self -> 1 <= max_connections self ->
  _create_chunks self = Return l ->
  (forall b, covered l b <-> 0 <= b < total_size self) <->
  (total_size self mod max_connections self = 0 \/
   total_size self / max_connections self < 1024 * 1024).
Proof.
  intros Hr HS HN Hl.
  pose proof (Z.div_mod (total_size self) (max_connections self) ltac:(lia)) as Hdm.
  pose proof (Z.mod_pos_bound (total_size self) (max_connections self) ltac:(lia)) as Hm.
  split.
  - intros Hcov.
    destruct (decide (total_size self mod max_connections self = 0)) as [|Hne]; [by left|].
    destruct (Z.lt_ge_cases (total_size self / max_connections self) (1024 * 1024))
      as [|Hq]; [by right|].
    exfalso. apply (create_chunks_remainder_lost self l Hr HN Hq Hne Hl).
    apply Hcov. lia.
  - intros Hc b. rewrite (create_chunks_covers self l b Hr HS HN Hl).
    assert (total_size self
            <= max_connections self *
               Z.max (total_size self / max_connections self) (1024 * 1024)); [|lia].
    destruct Hc as [Hc|Hc]; nia.
Qed.

Lemma planner_complete_iff_witness :
  let self :=
    set_supports_range true
      (set_total_size 10000000
         (__init__ "id" "http://host/file.bin" "file.bin" "/dl/file.bin" 4)) in
  let l := [(0, Some 2499999); (2500000, Some 4999999);
            (5000000, Some 7499999); (7500000, Some 9999999)] in
  (forall b, covered l b <-> 0 <= b < 10000000) <->
  (10000000 mod 4 = 0 \/ 10000000 / 4 < 1024 * 1024).
Proof.
  intros self l. apply (planner_complete_iff self l); by vm_compute.
Defined.

(** X2.  Over a range-capable server with a known size and at least one
    connection, the plan is not empty, has at most [max_connections] ranges,
    starts at offset 0, and its ranges are adjacent: each starts at the byte
    after the end of the one before.  Every range lies inside the resource
    and holds at most [chunk_size] bytes. *)
Theorem planner_ranges_adjacent (self : DownloadTask) (l : list chunk) :
  supports_range self = true -> 0 < total_size self -> 1 <= max_connections self ->
  _create_chunks self = Return l ->
  (1 <= length l <= Z.to_nat (max_connections self))%nat /\
  (exists e, l !! 0%nat = Some (0, e)) /\
  (forall (i : nat) c1 c2,
      l !! i = Some c1 -> l !! Datatypes.S i = Some c2 ->
      c1.2 = Some (c2.1 - 1)) /\
  (forall c, c ∈ l ->
      exists e, c.2 = Some e /\ 0 <= c.1 <= e /\ e <= total_size self - 1 /\
                e - c.1 + 1
                <= Z.max (total_size self / max_connections self) (1024 * 1024)).
Proof.
  intros Hr HS HN Hl. rewrite create_chunks_ranged in Hl by (done || lia).
  set (cs := Z.max _ _) in *. assert (0 < cs) as Hcs by (unfold cs; lia).
  rewrite plan_closed_form in Hl by lia. injection Hl as <-.
  set (m := Z.min _ _).
  pose proof (Z.div_mod (total_size self + cs - 1) cs ltac:(lia)) as Hdm.
  pose proof (Z.mod_pos_bound (total_size self + cs - 1) cs Hcs) as Hmod.
  assert (1 <= (total_size self + cs - 1) / cs) by nia.
  assert (1 <= m <= max_connections self) by lia.
  split; [rewrite length_fmap, length_seqZ; lia|].
  split.
  { eexists. rewrite list_lookup_fmap, lookup_seqZ_lt by lia. simpl. reflexivity. }
  split.
  - intros i c1 c2 H1 H2. rewrite list_lookup_fmap in H1, H2.
    destruct (seqZ 0 m !! i) as [a|] eqn:Ha; [|done].
    destruct (seqZ 0 m !! Datatypes.S i) as [b|] eqn:Hb; [|done].
    apply lookup_seqZ in Ha as [-> ?]. apply lookup_seqZ in Hb as [-> ?].
    simpl in *. simplify_eq. simpl. f_equal. nia.
  - intros c (i & -> & Hi%elem_of_seqZ)%list_elem_of_fmap.
    eexists. split; [done|]. simpl. nia.
Qed.

Lemma planner_ranges_adjacent_witness :
  let self :=
    set_supports_range true
      (set_total_size 10000001
         (__init__ "id" "http://host/file.bin" "file.bin" "/dl/file.bin" 4)) in
  let l := [(0, Some 2499999); (2500000, Some 4999999);
            (5000000, Some 7499999); (7500000, Some 9999999)] in
  (1 <= length l <= Z.to_nat 4)%nat /\
  (exists e, l !! 0%nat = Some (0, e)) /\
  (forall (i : nat) c1 c2,
      l !! i = Some c1 -> l !! Datatypes.S i = Some c2 ->
      c1.2 = Some (c2.1 - 1)) /\
  (forall c, c ∈ l ->
      exists e, c.2 = Some e /\ 0 <= c.1 <= e /\ e <= 10000001 - 1 /\
                e - c.1 + 1 <= Z.max (10000001 / 4) (1024 * 1024)).
Proof.
  intros self l. apply (planner_ranges_adjacent self l); by vm_compute.
Defined.

End plan_shape.

(** ** The probe *)

Section probe.

(** X3.  A probe never touches the status or the byte counter.  It reports
    failure exactly when the HEAD request raised or the content length did
    not parse.  It then records the detail and leaves the size as it was;
    range support is as it was when the request raised, and already set from
    the header when the content length did not parse.  When the probe reports
    success the error detail is left as it was, range support is set exactly
    when the header [accept-ranges] is [bytes], and the size is the content
    length if there is one. *)
Theorem probe_outcome (head : result head_response) (self : DownloadTask) :
  let out := _check_range_support head self in
  status out.2 = status self /\
  downloaded_size out.2 = downloaded_size self /\
  (out.1 = false <->
   (exists e, head = Raise e) \/
   (exists r e, head = Return r /\ content_length r = Some (Raise e))) /\
  (out.1 = false ->
   total_size out.2 = total_size self /\
   exists e,
     error_message out.2
     = Some ("Failed to check server capabilities: " +:+ str e) /\
     ((head = Raise e /\ supports_range out.2 = supports_range self) \/
      exists r, head = Return r /\ content_length r = Some (Raise e) /\
                supports_range out.2
                = bool_decide (accept_ranges r = Some "bytes"))) /\
  (out.1 = true ->
   error_message out.2 = error_message self /\
   exists r, head = Return r /\
     supports_range out.2 = bool_decide (accept_ranges r = Some "bytes") /\
     total_size out.2
     = match content_length r with
       | Some (Return n) => n
       | _ => total_size self
       end).
Proof.
  unfold _check_range_support. destruct head as [r|e]; cbn [fst snd].
  - destruct (content_length r) as [[n|e]|] eqn:Hc; cbn [fst snd].
    + split; [reflexivity|]. split; [reflexivity|]. split.
      { split; [discriminate|]. intros [[e [=]]|(r' & e & [= <-] & He)].
        rewrite Hc in He. discriminate. }
      split; [discriminate|].
      intros _. split; [reflexivity|]. exists r. rewrite Hc. by repeat split.
    + split; [reflexivity|]. split; [reflexivity|]. split.
      { split; [|reflexivity]. intros _. right. by exists r, e. }
      split; [|discriminate].
      intros _. split; [reflexivity|]. exists e. split; [reflexivity|].
      right. by exists r.
    + split; [reflexivity|]. split; [reflexivity|]. split.
      { split; [discriminate|]. intros [[e [=]]|(r' & e & [= <-] & He)].
        rewrite Hc in He. discriminate. }
      split; [discriminate|].
      intros _. split; [reflexivity|]. exists r. rewrite Hc. by repeat split.
  - split; [reflexivity|]. split; [reflexivity|]. split.
    { split; [|reflexivity]. intros _. left. by exists e. }
    split; [|discriminate].
    intros _. split; [reflexivity|]. exists e. split; [reflexivity|]. by left.
Qed.

(** X4.  Probe, then plan: when the answer to the probe does not carry
    [accept-ranges: bytes], the plan is a single segment from offset 0, open
    when no size is known and closed at the last byte otherwise. *)
Theorem probe_without_ranges_single_segment (r : head_response)
    (self : DownloadTask) :
  accept_ranges r <> Some "bytes" ->
  (forall e, content_length r <> Some (Raise e)) ->
  let out := _check_range_support (Return r) self in
  let size := match content_length r with
              | Some (Return n) => n
              | _ => total_size self
              end in
  out.1 = true /\
  _create_chunks out.2
  = Return [(0, if 0 <? size then Some (size - 1) else None)].
Proof.
  intros Ha Hc out size.
  pose proof (check_range_support_no_ranges self r Ha) as Hs. fold out in Hs.
  assert (out.1 = true /\ total_size out.2 = size) as [H1 Ht].
  { unfold out, size, _check_range_support.
    destruct (content_length r) as [[n|e]|] eqn:E; try done. by destruct (Hc e). }
  split; [done|].
  rewrite create_chunks_single by (by right). by rewrite Ht.
Qed.

Lemma probe_without_ranges_single_segment_witness :
  let out :=
    _check_range_support
      (Return {| accept_ranges := Some "none";
                 content_length := Some (Return 100) |})
      (__init__ "id" "http://host/file.bin" "file.bin" "/dl/file.bin" 4) in
  out.1 = true /\
  _create_chunks out.2 = Return [(0, if 0 <? 100 then Some (100 - 1) else None)].
Proof.
  apply (probe_without_ranges_single_segment
           {| accept_ranges := Some "none"; content_length := Some (Return 100) |}
           (__init__ "id" "http://host/file.bin" "file.bin" "/dl/file.bin" 4)).
  - by vm_compute.
  - by vm_compute.
Defined.

End probe.

(** ** A fetcher run to its end *)

Section fetcher_alone.

Implicit Types (w : World) (net : network) (t : DownloadTask).

Lemma run_fetcher_step net n f w w' f' :
  fetcher_step net f w = Some (w', f') ->
  run_fetcher net (Datatypes.S n) f w = run_fetcher net n f' w'.
Proof. intros H. simpl. by rewrite H. Qed.

Lemma set_downloaded_size_same t (v : Z) :
  v = downloaded_size t -> set_downloaded_size v t = t.
Proof. intros ->. by destruct t. Qed.

Lemma set_downloaded_size_twice t (a b c : Z) :
  a = c -> set_downloaded_size a (set_downloaded_size b t) = set_downloaded_size c t.
Proof. by intros ->. Qed.

(** The loop of a fetcher over the pieces of a body, with the pause flag
    clear: every piece is appended to the sink and counted. *)
Lemma run_fetcher_body net (c : call) (pieces : list (list byte))
    (rest : list stream_item) :
  ends_stream rest ->
  forall t (m : gmap string node) log (acc : list byte),
    paused t = false ->
    m !! sink_of c t = Some (File acc) ->
    exists n,
      run_fetcher net n
        {| f_call := c; f_pc := Iter ((Piece <$> pieces) ++ rest) |}
        {| task := t; fs := m; requests_log := log |}
      = ({| task := set_downloaded_size
                      (downloaded_size t + Z.of_nat (length (mjoin pieces))) t;
            fs := <[sink_of c t := File (acc ++ mjoin pieces)]> m;
            requests_log := log |},
         {| f_call := c; f_pc := end_pc c rest |}).
Proof.
  intros Hrest. induction pieces as [|d pieces IH]; intros t m log acc Hp Hm.
  - exists 1%nat. cbn [fmap list_fmap app mjoin length].
    rewrite app_nil_r, insert_id by done.
    rewrite set_downloaded_size_same by (simpl; lia).
    destruct rest as [|[d|e] rest]; [|done|]; by destruct c.
  - destruct (decide (d = [])) as [->|Hd].
    + destruct (IH t m log acc Hp Hm) as [n Hn]. exists (Datatypes.S n).
      rewrite (run_fetcher_step _ _ _ _ {| task := t; fs := m; requests_log := log |}
                 {| f_call := c; f_pc := Iter ((Piece <$> pieces) ++ rest) |}).
      * exact Hn.
      * unfold fetcher_step. destruct c; simpl; by rewrite Hp.
    + destruct (IH (set_downloaded_size
                      (downloaded_size t + Z.of_nat (length d)) t)
                   (<[sink_of c t := File (acc ++ d)]> m) log (acc ++ d) Hp)
        as [n Hn].
      { change (sink_of c (set_downloaded_size _ t)) with (sink_of c t).
        apply lookup_insert_eq. }
      exists (Datatypes.S (Datatypes.S (Datatypes.S n))).
      rewrite (run_fetcher_step _ _ _ _ {| task := t; fs := m; requests_log := log |}
                 {| f_call := c; f_pc := Writing d ((Piece <$> pieces) ++ rest) |}).
      2:{ unfold fetcher_step. destruct c; simpl; rewrite Hp;
            by rewrite bool_decide_eq_false_2. }
      rewrite (run_fetcher_step _ _ _ _
                 {| task := t; fs := <[sink_of c t := File (acc ++ d)]> m;
                    requests_log := log |}
                 {| f_call := c; f_pc := Counting d ((Piece <$> pieces) ++ rest) |}).
      2:{ unfold fetcher_step. destruct c; simpl in *; unfold file_write; simpl;
            by rewrite Hm. }
      rewrite (run_fetcher_step _ _ _ _
                 {| task := set_downloaded_size
                              (downloaded_size t + Z.of_nat (length d)) t;
                    fs := <[sink_of c t := File (acc ++ d)]> m;
                    requests_log := log |}
                 {| f_call := c; f_pc := Iter ((Piece <$> pieces) ++ rest) |}).
      2:{ unfold fetcher_step. by destruct c. }
      rewrite Hn. f_equal. f_equal.
      * apply set_downloaded_size_twice. simpl. rewrite length_app. lia.
      * change (sink_of c (set_downloaded_size _ t)) with (sink_of c t).
        rewrite insert_insert_eq. simpl. by rewrite <- app_assoc.
Qed.

Lemma download_chunk_start net start end_ temp_file chunk_id w resp :
  net (requests_log w)
      {| req_url := url (task w); req_range := Some (range_header start end_) |}
  = Return resp ->
  raise_for_status resp = None ->
  fs w !! temp_file <> Some Dir ->
  fetcher_step net
    {| f_call := Chunk start end_ temp_file chunk_id; f_pc := Start |} w
  = Some ({| task := task w; fs := <[temp_file := File []]> (fs w);
             requests_log :=
               requests_log w ++
               [{| req_url := url (task w);
                   req_range := Some (range_header start end_) |}] |},
          {| f_call := Chunk start end_ temp_file chunk_id;
             f_pc := Iter (iter_content resp) |}).
Proof.
  intros Hnet Hst Hdir. unfold fetcher_step. cbn [f_call f_pc _download_chunk].
  rewrite bind_run. unfold requests_get. rewrite Hnet, Hst.
  rewrite bind_run. unfold open_wb, set_fs, set_requests_log.
  cbn [fs task requests_log].
  by destruct (fs w !! temp_file) as [[d|]|].
Qed.

Lemma run_fetcher_chunk net start end_ temp_file chunk_id w resp
    (pieces : list (list byte)) (rest : list stream_item) :
  paused (task w) = false ->
  net (requests_log w)
      {| req_url := url (task w); req_range := Some (range_header start end_) |}
  = Return resp ->
  raise_for_status resp = None ->
  iter_content resp = (Piece <$> pieces) ++ rest -> ends_stream rest ->
  fs w !! temp_file <> Some Dir ->
  exists n w',
    run_fetcher net n
      {| f_call := Chunk start end_ temp_file chunk_id; f_pc := Start |} w
    = (w', {| f_call := Chunk start end_ temp_file chunk_id;
              f_pc := end_pc (Chunk start end_ temp_file chunk_id) rest |}) /\
    fs w' = <[temp_file := File (mjoin pieces)]> (fs w) /\
    task w'
    = set_downloaded_size
        (downloaded_size (task w) + Z.of_nat (length (mjoin pieces))) (task w) /\
    requests_log w'
    = requests_log w ++
      [{| req_url := url (task w); req_range := Some (range_header start end_) |}].
Proof.
  intros Hp Hnet Hst Hbody Hrest Hdir.
  destruct (run_fetcher_body net (Chunk start end_ temp_file chunk_id)
              pieces rest Hrest (task w)
              (<[temp_file := File []]> (fs w))
              (requests_log w ++
               [{| req_url := url (task w);
                   req_range := Some (range_header start end_) |}])
              [] Hp) as [n Hn].
  { apply lookup_insert_eq. }
  exists (Datatypes.S n). eexists.
  rewrite (run_fetcher_step _ _ _ _ _ _
             (download_chunk_start net start end_ temp_file chunk_id w resp
                Hnet Hst Hdir)).
  rewrite Hbody, Hn. split; [reflexivity|]. cbn [fs task requests_log sink_of].
  by rewrite insert_insert_eq.
Qed.

(** X5.  A chunk fetched without interruption from a server that answers with
    a success status: the fetcher returns, the sink holds the bytes of the
    body in the order received and nothing of what it held before, the byte
    counter has grown by the length of the body, and one request has been
    made, for the range of the chunk. *)
Theorem download_chunk_writes_body net start end_ temp_file chunk_id w resp
    (pieces : list (list byte)) :
  paused (task w) = false ->
  net (requests_log w)
      {| req_url := url (task w); req_range := Some (range_header start end_) |}
  = Return resp ->
  raise_for_status resp = None ->
  iter_content resp = Piece <$> pieces ->
  fs w !! temp_file <> Some Dir ->
  exists n w',
    run_fetcher net n
      {| f_call := Chunk start end_ temp_file chunk_id; f_pc := Start |} w
    = (w', {| f_call := Chunk start end_ temp_file chunk_id; f_pc := Returned |}) /\
    fs w' = <[temp_file := File (mjoin pieces)]> (fs w) /\
    task w'
    = set_downloaded_size
        (downloaded_size (task w) + Z.of_nat (length (mjoin pieces))) (task w) /\
    requests_log w'
    = requests_log w ++
      [{| req_url := url (task w); req_range := Some (range_header start end_) |}].
Proof.
  intros Hp Hnet Hst Hbody Hdir.
  apply (run_fetcher_chunk net start end_ temp_file chunk_id w resp pieces []);
    try done.
  by rewrite app_nil_r.
Qed.

Lemma download_chunk_writes_body_witness :
  exists n w',
    run_fetcher net_ok n
      {| f_call := Chunk 0 (Some 9) "/dl/file.bin.part0" 0; f_pc := Start |}
      demo_world
    = (w', {| f_call := Chunk 0 (Some 9) "/dl/file.bin.part0" 0;
              f_pc := Returned |}) /\
    fs w' = <["/dl/file.bin.part0" :=
                File (mjoin [[x30; x31; x32; x33; x34]; [x35; x36; x37; x38; x39]])]>
              (fs demo_world) /\
    task w'
    = set_downloaded_size
        (downloaded_size (task demo_world) +
         Z.of_nat (length (mjoin [[x30; x31; x32; x33; x34];
                                  [x35; x36; x37; x38; x39]])))
        (task demo_world) /\
    requests_log w'
    = requests_log demo_world ++
      [{| req_url := url (task demo_world);
          req_range := Some (range_header 0 (Some 9)) |}].
Proof.
  eapply (download_chunk_writes_body net_ok 0 (Some 9) "/dl/file.bin.part0" 0%nat
            demo_world _ [[x30; x31; x32; x33; x34]; [x35; x36; x37; x38; x39]]);
    by vm_compute.
Defined.

(** X6.  When the stream of a chunk breaks after some pieces, the fetcher
    raises ["Failed to download chunk i: detail"]; the pieces received before
    the break stay in the sink and stay counted. *)
Theorem download_chunk_broken_stream net start end_ temp_file chunk_id w resp
    (pieces : list (list byte)) (e : exn) (rest : list stream_item) :
  paused (task w) = false ->
  net (requests_log w)
      {| req_url := url (task w); req_range := Some (range_header start end_) |}
  = Return resp ->
  raise_for_status resp = None ->
  iter_content resp = (Piece <$> pieces) ++ Broken e :: rest ->
  fs w !! temp_file <> Some Dir ->
  exists n w',
    run_fetcher net n
      {| f_call := Chunk start end_ temp_file chunk_id; f_pc := Start |} w
    = (w', {| f_call := Chunk start end_ temp_file chunk_id;
              f_pc := Raised (chunk_failure chunk_id e) |}) /\
    fs w' = <[temp_file := File (mjoin pieces)]> (fs w) /\
    task w'
    = set_downloaded_size
        (downloaded_size (task w) + Z.of_nat (length (mjoin pieces))) (task w).
Proof.
  intros Hp Hnet Hst Hbody Hdir.
  destruct (run_fetcher_chunk net start end_ temp_file chunk_id w resp pieces
              (Broken e :: rest) Hp Hnet Hst Hbody I Hdir)
    as (n & w' & Hrun & Hfs & Ht & _).
  by exists n, w'.
Qed.

Lemma download_chunk_broken_stream_witness :
  let net : network := fun _ _ =>
    Return {| raise_for_status := None;
              iter_content := [Piece [x30; x31; x32];
                               Broken (Exn TransportError "Connection broken")] |} in
  exists n w',
    run_fetcher net n
      {| f_call := Chunk 0 (Some 9) "/dl/file.bin.part0" 0; f_pc := Start |}
      demo_world
    = (w', {| f_call := Chunk 0 (Some 9) "/dl/file.bin.part0" 0;
              f_pc := Raised (chunk_failure 0
                                (Exn TransportError "Connection broken")) |}) /\
    fs w' = <["/dl/file.bin.part0" := File (mjoin [[x30; x31; x32]])]>
              (fs demo_world) /\
    task w'
    = set_downloaded_size
        (downloaded_size (task demo_world) +
         Z.of_nat (length (mjoin [[x30; x31; x32]])))
        (task demo_world).
Proof.
  intros net.
  eapply (download_chunk_broken_stream net 0 (Some 9) "/dl/file.bin.part0" 0%nat
            demo_world _ [[x30; x31; x32]] _ []);
    by vm_compute.
Defined.

(** X7.  Entering the fetch of a chunk while the pause flag is set still
    makes the request and truncates the sink: whatever the sink held is
    gone, nothing is written, and the byte counter is as it was. *)
Theorem download_chunk_paused_truncates net start end_ temp_file
    (chunk_id : nat) w resp (d : list byte) (body : list stream_item) :
  paused (task w) = true ->
  net (requests_log w)
      {| req_url := url (task w); req_range := Some (range_header start end_) |}
  = Return resp ->
  raise_for_status resp = None ->
  iter_content resp = Piece d :: body ->
  fs w !! temp_file <> Some Dir ->
  run_fetcher net 2
    {| f_call := Chunk start end_ temp_file chunk_id; f_pc := Start |} w
  = ({| task := task w; fs := <[temp_file := File []]> (fs w);
        requests_log :=
          requests_log w ++
          [{| req_url := url (task w);
              req_range := Some (range_header start end_) |}] |},
     {| f_call := Chunk start end_ temp_file chunk_id; f_pc := Returned |}).
Proof.
  intros Hp Hnet Hst Hbody Hdir.
  rewrite (run_fetcher_step _ _ _ _ _ _
             (download_chunk_start net start end_ temp_file chunk_id w resp
                Hnet Hst Hdir)).
  rewrite Hbody. simpl. unfold fetcher_step. simpl. by rewrite Hp.
Qed.

Lemma download_chunk_paused_truncates_witness :
  let w := {| task := pause demo_task;
              fs := {[ "/dl/file.bin.part0" := File [x30; x31; x32] ]};
              requests_log := [] |} in
  run_fetcher net_ok 2
    {| f_call := Chunk 0 (Some 9) "/dl/file.bin.part0" 0; f_pc := Start |} w
  = ({| task := task w; fs := <["/dl/file.bin.part0" := File []]> (fs w);
        requests_log :=
          requests_log w ++
          [{| req_url := url (task w);
              req_range := Some (range_header 0 (Some 9)) |}] |},
     {| f_call := Chunk 0 (Some 9) "/dl/file.bin.part0" 0; f_pc := Returned |}).
Proof.
  intros w.
  eapply (download_chunk_paused_truncates net_ok 0 (Some 9) "/dl/file.bin.part0"
            0%nat w _ [x30; x31; x32; x33; x34] _);
    by vm_compute.
Defined.




End fetcher_alone.

(** ** What a started task does *)

Section started_task.

Implicit Types (s : system) (net : network).

Lemma task_change_status t t' :
  task_change t t' ->
  status t' = status t \/ status t' = "downloading" \/
  status t' = "paused" \/ status t' = "error".
Proof. destruct 1; simpl; auto. Qed.

Lemma lookup_app_length {A} (l : list A) (x : A) : (l ++ [x]) !! length l = Some x.
Proof. by rewrite lookup_app_r, Nat.sub_diag by lia. Qed.

(** X9.  [start_download] starts a worker that does two things: it sets the
    status to ["downloading"] and records the start time.  A task that has
    only been started therefore never makes a request, never writes a file
    and never counts a byte, whatever is called on it afterwards and in
    whatever order its threads run. *)
Theorem started_task_never_downloads net (s : system) :
  fetchers s = [] -> orch s = None ->
  (forall now1 now2,
      exists s',
        run net [Work (length (workers s)) now1; Work (length (workers s)) now2]
          (start_download s) = Some s' /\
        status (task (world s')) = "downloading" /\
        start_time (task (world s')) = Some now2 /\
        workers s' = workers s ++ [WDone]) /\
  (forall evs s',
      run net evs (start_download s) = Some s' ->
      fs (world s') = fs (world s) /\
      requests_log (world s') = requests_log (world s) /\
      downloaded_size (task (world s')) = downloaded_size (task (world s)) /\
      fetchers s' = []).
Proof.
  intros Hf Ho. split.
  - intros now1 now2. eexists. simpl.
    rewrite lookup_app_length. simpl.
    rewrite list_lookup_insert_eq by (rewrite length_app; simpl; lia). simpl.
    split; [reflexivity|]. simpl. repeat split.
    rewrite list_insert_insert_eq.
    replace (length (workers s)) with (length (workers s) + 0)%nat by lia.
    by rewrite insert_app_r.
  - intros evs s' Hrun.
    assert (fetchers s' = [] /\ orch s' = None /\
            fs (world s') = fs (world s) /\
            requests_log (world s') = requests_log (world s) /\
            downloaded_size (task (world s')) = downloaded_size (task (world s)))
      as (? & _ & ? & ? & ?); [|done].
    eapply (run_invariant net
              (fun x => fetchers x = [] /\ orch x = None /\
                        fs (world x) = fs (world s) /\
                        requests_log (world x) = requests_log (world s) /\
                        downloaded_size (task (world x))
                        = downloaded_size (task (world s))));
      [|exact Hrun|by simpl].
    clear. intros e x x' He (Hf & Ho & Hfs & Hl & Hd).
    destruct e as [k|k| |j now| |]; simpl in He.
    + by rewrite Hf in He.
    + by rewrite Ho in He.
    + by rewrite Ho in He.
    + simplify_option_eq; break_pairs. unfold _download_worker in *.
      repeat case_match; simplify_eq; by simpl.
    + by simplify_eq.
    + simplify_eq. unfold resume. case_bool_decide; by simpl.
Qed.

Lemma started_task_never_downloads_witness :
  let s := {| world := demo_world; fetchers := []; orch := None; workers := [] |} in
  exists s',
    run net_ok [Work 0 100; CallPause; Work 0 101; CallResume] (start_download s)
    = Some s' /\
    fs (world s') = fs (world s) /\
    requests_log (world s') = requests_log (world s) /\
    downloaded_size (task (world s')) = downloaded_size (task (world s)) /\
    fetchers s' = [].
Proof.
  intros s. eexists. split; [vm_compute; reflexivity|].
  eapply (proj2 (started_task_never_downloads net_ok s eq_refl eq_refl)
            [Work 0 100; CallPause; Work 0 101; CallResume]).
  vm_compute; reflexivity.
Defined.

(** X10.  The only values ever written to the status are ["downloading"],
    ["paused"] and ["error"]: along every execution the status is what it
    was at the start or one of these three.  In particular no execution sets
    the status to ["completed"]. *)
Theorem status_never_completed net (evs : list event) (s s' : system) :
  run net evs s = Some s' ->
  (status (task (world s')) = status (task (world s)) \/
   status (task (world s')) = "downloading" \/
   status (task (world s')) = "paused" \/
   status (task (world s')) = "error") /\
  (status (task (world s)) <> "completed" ->
   status (task (world s')) <> "completed").
Proof.
  intros Hrun.
  assert (status (task (world s')) = status (task (world s)) \/
          status (task (world s')) = "downloading" \/
          status (task (world s')) = "paused" \/
          status (task (world s')) = "error") as H.
  { eapply (run_invariant net
              (fun x => status (task (world x)) = status (task (world s)) \/
                        status (task (world x)) = "downloading" \/
                        status (task (world x)) = "paused" \/
                        status (task (world x)) = "error"));
      [|exact Hrun|by left].
    intros e x x' He Hx. apply step_task_change, task_change_status in He.
    destruct He as [->|He]; [done|]. by right. }
  split; [done|]. intros Hne Hc. rewrite Hc in H.
  destruct H as [H|[H|[H|H]]]; by try discriminate H.
Qed.

Lemma status_never_completed_witness :
  exists s s',
    _multipart_download [(0, Some 9)] 0 demo_world = Return s /\
    run net_ok [Fetch 0; Fetch 0; Fetch 0; Fetch 0; Fetch 0; Fetch 0; Fetch 0;
                Fetch 0; Yield 0; Orch; Orch; Orch] s = Some s' /\
    o_pc <$> orch s' = Some Finished /\
    fs (world s') !! "/dl/file.bin"
    = Some (File [x30; x31; x32; x33; x34; x35; x36; x37; x38; x39]) /\
    (status (task (world s')) = status (task (world s)) \/
     status (task (world s')) = "downloading" \/
     status (task (world s')) = "paused" \/
     status (task (world s')) = "error") /\
    (status (task (world s)) <> "completed" ->
     status (task (world s')) <> "completed").
Proof.
  eexists _, _. split; [vm_compute; reflexivity|].
  split; [vm_compute; reflexivity|].
  split; [vm_compute; reflexivity|].
  split; [vm_compute; reflexivity|].
  eapply (status_never_completed net_ok
            [Fetch 0; Fetch 0; Fetch 0; Fetch 0; Fetch 0; Fetch 0; Fetch 0;
             Fetch 0; Yield 0; Orch; Orch; Orch]).
  vm_compute; reflexivity.
Defined.

End started_task.

(** ** File names and paths of a new task *)

Section new_task.


















End new_task.

(** ** The routes over the registry *)

Section routes.

Implicit Types (a : App) (sv : Server).





(** X14.  Requests that cannot be served leave everything as it was: a start
    request without a body answers 500, one without a URL or with an empty
    URL answers 400, and a pause, resume or cancel request for an identifier
    that is not registered answers 404. *)
Theorem routes_reject_without_effect (uuid4 : string)
    (urlparse_path : string -> result string) (now : Z) (download_directory : string)
    (a : App) :
  (start_download_route uuid4 urlparse_path now download_directory None a).1 = a /\
  (start_download_route uuid4 urlparse_path now download_directory None a).2.2 = 500 /\
  (forall body, b_url body = None \/ b_url body = Some "" ->
     start_download_route uuid4 urlparse_path now download_directory (Some body) a
     = (a, ([("error", JString "URL is required")], 400))) /\
  (forall download_id, download_tasks (server a) !! download_id = None ->
     pause_download_route download_id (server a)
     = (server a, ([("error", JString "Download not found")], 404)) /\
     resume_download_route download_id a
     = (a, ([("error", JString "Download not found")], 404)) /\
     cancel_download_route download_id (server a)
     = (server a, ([("error", JString "Download not found")], 404))).
Proof.
  split; [done|]. split; [done|]. split.
  - intros body [H|H]; unfold start_download_route; by rewrite H.
  - intros download_id H.
    unfold pause_download_route, resume_download_route, cancel_download_route.
    by rewrite H.
Qed.

Lemma routes_reject_without_effect_witness :
  let a := {| server := cancel_server; spawned := ∅ |} in
  start_download_route "new" (fun _ => Return "/f.bin") 0 "/dl"
    (Some {| b_url := Some ""; b_filename := Some "x.bin";
             b_download_path := None; b_max_connections := Some 8 |}) a
  = (a, ([("error", JString "URL is required")], 400)) /\
  pause_download_route "other" (server a)
  = (server a, ([("error", JString "Download not found")], 404)).
Proof.
  intros a.
  destruct (routes_reject_without_effect "new" (fun _ => Return "/f.bin") 0 "/dl" a)
    as (_ & _ & Hs & Hr).
  split.
  - apply Hs. by right.
  - apply (Hr "other"). reflexivity.
Defined.

(** X15.  After a task has been cancelled its identifier is gone: a second
    cancel, a pause and a resume for it answer 404 and change nothing.  The
    other identifiers resolve to the same objects as before, and every object
    but the cancelled one is untouched. *)
Theorem cancel_unregisters_for_good (download_id : string) (r : nat)
    (a : App) :
  download_tasks (server a) !! download_id = Some r ->
  let sv' := (cancel_download_route download_id (server a)).1 in
  let a' := {| server := sv'; spawned := spawned a |} in
  cancel_download_route download_id sv'
  = (sv', ([("error", JString "Download not found")], 404)) /\
  pause_download_route download_id sv'
  = (sv', ([("error", JString "Download not found")], 404)) /\
  resume_download_route download_id a'
  = (a', ([("error", JString "Download not found")], 404)) /\
  (forall id', id' <> download_id ->
     download_tasks sv' !! id' = download_tasks (server a) !! id') /\
  (forall r', r' <> r -> heap sv' !! r' = heap (server a) !! r').
Proof.
  intros Hr. cbv zeta.
  assert ((cancel_download_route download_id (server a)).1
          = {| heap := alter pause r (heap (server a));
               download_tasks := delete download_id (download_tasks (server a));
               disk := disk (server a) |}) as ->.
  { unfold cancel_download_route. by rewrite Hr. }
  unfold cancel_download_route, pause_download_route, resume_download_route.
  cbn [server download_tasks heap]. rewrite lookup_delete_eq.
  repeat (split; [reflexivity|]). split.
  - intros id' Hid. by apply lookup_delete_ne.
  - intros r' Hr'. by apply lookup_alter_ne.
Qed.

Lemma cancel_unregisters_for_good_witness :
  let a := {| server := cancel_server; spawned := ∅ |} in
  let sv' := (cancel_download_route "id" (server a)).1 in
  let a' := {| server := sv'; spawned := spawned a |} in
  cancel_download_route "id" sv'
  = (sv', ([("error", JString "Download not found")], 404)) /\
  pause_download_route "id" sv'
  = (sv', ([("error", JString "Download not found")], 404)) /\
  resume_download_route "id" a'
  = (a', ([("error", JString "Download not found")], 404)) /\
  (forall id', id' <> "id" ->
     download_tasks sv' !! id' = download_tasks (server a) !! id') /\
  (forall r', r' <> 0%nat -> heap sv' !! r' = heap (server a) !! r').
Proof.
  intros a.
  apply (cancel_unregisters_for_good "id" 0%nat a). reflexivity.
Defined.



End routes.

(** ** A multipart download from start to end *)

Section multipart_end_to_end.

Implicit Types (w : World) (x : system) (net : network)
  (srv : request -> response) (m : gmap string node).















End multipart_end_to_end.
